(** * FoenixMgr: debug-port protocol, alignment adapter, loaders, reset vectors

    A shallow embedding of the Go sources of FoenixMgr (package [protocol],
    package [loader], package [config] and the flash commands of package
    [cmd]) together with the properties its specification states about them.

    Conventions of the embedding.
    - Go's fixed-width unsigned integers are [Z] values; every conversion
      ([byte(x)], [uint16(x)], [uint32(x)]) and every operation that can leave
      the range is written with its wrap-around ([uint8], [uint16], [uint32]).
    - A [[]byte] is a [list Z]; [nil] and the empty slice are both [[]]
      (the sources only ever test [len]).
    - A Go function returning [(T, error)] returns a pair [T * option error];
      a method with a pointer receiver threads the receiver explicitly.
    - [fmt.Errorf] keeps its format string and arguments unrendered. *)

From stdpp Require Import base list gmap strings.
From Stdlib Require Import ZArith Lia.

Local Open Scope Z_scope.

(** ** Machine integers and slices *)

Definition uint8 (z : Z) : Z := z mod 2 ^ 8.
Definition uint16 (z : Z) : Z := z mod 2 ^ 16.
Definition uint32 (z : Z) : Z := z mod 2 ^ 32.

(** Go's [int] on the 64-bit targets the tool is built for: two's complement
    with silent wrap-around. *)
Definition int (z : Z) : Z := (z + 2 ^ 63) mod 2 ^ 64 - 2 ^ 63.

(** [len(s)] as an [int]. *)
Definition len {A} (s : list A) : Z := Z.of_nat (length s).

(** [s[i]] with the run-time bounds check: [None] is the index-out-of-range
    panic. *)
Definition index {A} (s : list A) (i : Z) : option A :=
  if (0 <=? i) && (i <? len s) then s !! Z.to_nat i else None.

(** [s[lo:hi]] with the run-time bounds check (capacity equals length for the
    slices of these sources): [None] is the slice-bounds panic. *)
Definition slice {A} (s : list A) (lo hi : Z) : option (list A) :=
  if (0 <=? lo) && (lo <=? hi) && (hi <=? len s)
  then Some (take (Z.to_nat (hi - lo)) (drop (Z.to_nat lo) s))
  else None.

(** [s[lo:]]. *)
Definition slice_from {A} (s : list A) (lo : Z) : option (list A) :=
  slice s lo (len s).

(** [copy(dst, src)]: overwrites the first [min(len dst, len src)] elements. *)
Definition copy {A} (dst src : list A) : list A :=
  take (length dst) src ++ drop (length src) dst.

(** ** Errors *)

Inductive fmtarg : Type :=
| ArgInt (z : Z)
| ArgStr (s : string)
| ArgBytes (b : list Z).

(** [fmt.Errorf(format, args...)]; [wrapped] is the operand of [%w]. *)
#[warnings="-register-all"]
Inductive error : Type :=
| Errorf (format : string) (args : list fmtarg) (wrapped : option error).

Definition format_of (e : error) : string :=
  match e with Errorf f _ _ => f end.

(** ** Runs that may panic or never return

    The loaders index into byte slices and loop over the file; a run of such
    code returns, stops in a run-time panic, or is still looping when the
    fuel given to its embedding is used up. *)

Inductive exec (A : Type) : Type :=
| Done (a : A)
| Panics
| Diverges.
Arguments Done {A} a.
Arguments Panics {A}.
Arguments Diverges {A}.

Definition exec_bind {A B} (m : exec A) (k : A -> exec B) : exec B :=
  match m with
  | Done a => k a
  | Panics => Panics
  | Diverges => Diverges
  end.

(** A checked slice access inside a run. *)
Definition checked {A} (o : option A) : exec A :=
  match o with
  | Some a => Done a
  | None => Panics
  end.

Notation "x <- m ;; k" := (exec_bind m (fun x => k))
  (at level 100, m at next level, right associativity).

(** [make([]byte, n)] *)
Definition make (n : Z) : list Z := replicate (Z.to_nat n) 0.

(** ** Package config *)

Module config.

Record Config : Type := mkConfig {
    Port : string;
    DataRate : Z;
    Timeout : Z;
    CPU : string;
    ChunkSize : Z;
    FlashSize : Z;
    flashPageSize : Z;
    flashSectorSize : Z;
    ramSize : Z
  }.

Definition CPUIsMotorolatype680X0 (c : Config) : bool :=
    let cpu := CPU c in
    String.eqb cpu "m68k" || String.eqb cpu "68000"
    || String.eqb cpu "68040" || String.eqb cpu "68060".

Definition CPUIsM68k32 (c : Config) : bool :=
    let cpu := CPU c in
    String.eqb cpu "68040" || String.eqb cpu "68060".

Definition FlashPageSize (c : Config) : Z := flashPageSize c.
Definition FlashSectorSize (c : Config) : Z := flashSectorSize c.
Definition RAMSize (c : Config) : Z := ramSize c.

End config.

(** ** Package connection: the transport seen from the debug port

    [Connection] is an interface; the serial and the TCP implementation both
    promise that [Read(n)] returns exactly [n] bytes or an error and that
    [Write] reports how many bytes went out.  The peer is modelled by the two
    scripts of replies it will give to the successive [Read] and [Write]
    calls; the history records every packet handed to [Write] and every
    pause the debug port takes between commands. *)

Module connection.

Inductive ReadReply : Type :=
  | RdBytes (bs : list Z)
  | RdFail (e : error).

Inductive WriteReply : Type :=
  | WrAll                                (* every byte written, no error *)
  | WrCount (n : Z) (e : option error).  (* [n] bytes reported, with [e] *)

Inductive Event : Type :=
  | Wrote (packet : list Z)
  | Slept (seconds : Z).

Record Conn : Type := mkConn {
    reads : list ReadReply;
    writes : list WriteReply;
    history : list Event
  }.

Definition ErrClosed : error := Errorf "connection closed" [] None.
Definition ErrShort (n got : Z) : error :=
    Errorf "read timeout (expected %d bytes, got %d)" [ArgInt n; ArgInt got] None.

  (** [Read(n)]: exactly [n] bytes, or an error. *)
Definition Read (n : Z) (c : Conn) : (list Z * option error) * Conn :=
    match reads c with
    | [] => (([], Some ErrClosed), c)
    | r :: rest =>
      let c' := mkConn rest (writes c) (history c) in
      match r with
      | RdFail e => (([], Some e), c')
      | RdBytes bs =>
        if len bs =? n then ((bs, None), c')
        else (([], Some (ErrShort n (len bs))), c')
      end
    end.

  (** [Write(data)]: the number of bytes written and an error. *)
Definition Write (data : list Z) (c : Conn) : (Z * option error) * Conn :=
    let h := history c ++ [Wrote data] in
    match writes c with
    | [] => ((0, Some ErrClosed), mkConn (reads c) [] h)
    | WrAll :: rest => ((len data, None), mkConn (reads c) rest h)
    | WrCount n e :: rest => ((n, e), mkConn (reads c) rest h)
    end.

  (** [time.Sleep(d)], recorded in the history. *)
Definition Sleep (seconds : Z) (c : Conn) : Conn :=
    mkConn (reads c) (writes c) (history c ++ [Slept seconds]).

End connection.

(** ** Package protocol *)

Module protocol.
Import connection.

Definition CMDReadMem : Z := 0x00.
Definition CMDWriteMem : Z := 0x01.
Definition CMDProgramFlash : Z := 0x10.
Definition CMDEraseFlash : Z := 0x11.
Definition CMDEraseSector : Z := 0x12.
Definition CMDProgramSector : Z := 0x13.
Definition CMDStopCPU : Z := 0x20.
Definition CMDStartCPU : Z := 0x21.
Definition CMDEnterDebug : Z := 0x80.
Definition CMDExitDebug : Z := 0x81.
Definition CMDBootRAM : Z := 0x90.
Definition CMDBootFlash : Z := 0x91.
Definition CMDRevision : Z := 0xFE.

Definition RequestSyncByte : Z := 0x55.
Definition ResponseSyncByte : Z := 0xAA.

Definition DelayEraseSector : Z := 1.
Definition DelayProgramSector : Z := 2.

Definition BootSrcRAM : Z := 0x00.
Definition BootSrcFlash : Z := 0x01.

Definition PGXcpu65816 : Z := 0x01.
Definition PGXcpu680X0 : Z := 0x02.
Definition PGXcpu65C02 : Z := 0x03.
Definition PGXOffSigStart : Z := 0.
Definition PGXOffSigEnd : Z := 3.
Definition PGXOffVersion : Z := 3.
Definition PGXOffAddrStart : Z := 4.
Definition PGXOffAddrEnd : Z := 8.
Definition PGXOffData : Z := 8.

Record DebugPort : Type := mkDebugPort {
    conn : Conn;
    config : config.Config;
    status0 : Z;
    status1 : Z
  }.

Definition NewDebugPort (c : Conn) (cfg : config.Config) : DebugPort :=
    mkDebugPort c cfg 0 0.

Definition GetStatus0 (dp : DebugPort) : Z := status0 dp.
Definition GetStatus1 (dp : DebugPort) : Z := status1 dp.

Definition with_conn (c : Conn) (dp : DebugPort) : DebugPort :=
    mkDebugPort c (config dp) (status0 dp) (status1 dp).

Definition with_status (s0 s1 : Z) (dp : DebugPort) : DebugPort :=
    mkDebugPort (conn dp) (config dp) s0 s1.

  (** The 7-byte request header of [transfer]. *)
Definition header (command address length : Z) : list Z :=
    [ RequestSyncByte; command;
      uint8 (address ≫ 16); uint8 (address ≫ 8); uint8 address;
      uint8 (length ≫ 8); uint8 length ].

  (** [for i := 0; i < 6; i++ { lrc ^= header[i] }] *)
Definition lrc_header (hdr : list Z) : Z :=
    foldl (fun lrc i => Z.lxor lrc (nth i hdr 0)) 0 (seq 0 6).

  (** The request packet [transfer] builds: header, data when present, LRC. *)
Definition packet (command address : Z) (data : list Z) (readLength : Z) : list Z :=
    let present := 0 <? len data in
    let length := if present then uint16 (len data) else readLength in
    let hdr := header command address length in
    let lrc := lrc_header hdr in
    let lrc := if present then foldl Z.lxor lrc data else lrc in
    (hdr ++ (if present then data else [])) ++ [lrc].

  (** [for syncByte != ResponseSyncByte { buf, err := dp.conn.Read(1); ... }]
      The loop has no bound of its own; [fuel] counts its iterations and
      [None] is returned only when the fuel runs out. *)
Fixpoint await_sync (fuel : nat) (syncByte : Z) (c : Conn)
    : option (option error) * Conn :=
    if syncByte =? ResponseSyncByte then (Some None, c)
    else match fuel with
         | O => (None, c)
         | S fuel' =>
           let '((buf, err), c') := Read 1 c in
           match err with
           | Some e =>
             (Some (Some (Errorf "failed to read sync byte: %w" [] (Some e))), c')
           | None => await_sync fuel' (nth 0 buf 0) c'
           end
         end.

Definition ErrDiverged : error := Errorf "sync loop still running" [] None.

Definition transfer (command address : Z) (data : list Z) (readLength : Z)
      (dp : DebugPort) : (list Z * option error) * DebugPort :=
    (* Reset status bytes *)
    let dp := with_status 0 0 dp in
    let pkt := packet command address data readLength in
    let '((written, err), c) := Write pkt (conn dp) in
    let dp := with_conn c dp in
    match err with
    | Some e => (([], Some (Errorf "failed to write packet: %w" [] (Some e))), dp)
    | None =>
      if negb (written =? len pkt) then
        (([], Some (Errorf "incomplete write: wrote %d bytes, expected %d"
                      [ArgInt written; ArgInt (len pkt)] None)), dp)
      else
        (* every iteration of the sync loop consumes one scripted reply *)
        let '(synced, c) := await_sync (S (length (reads (conn dp)))) 0 (conn dp) in
        let dp := with_conn c dp in
        match synced with
        | None => (([], Some ErrDiverged), dp)
        | Some (Some e) => (([], Some e), dp)
        | Some None =>
          let '((statusBytes, err), c) := Read 2 (conn dp) in
          let dp := with_conn c dp in
          match err with
          | Some e =>
            (([], Some (Errorf "failed to read status bytes: %w" [] (Some e))), dp)
          | None =>
            let dp := with_status (nth 0 statusBytes 0) (nth 1 statusBytes 0) dp in
            let '((readBytes, err), dp) :=
              if 0 <? readLength then
                let '((bs, err), c) := Read readLength (conn dp) in
                ((bs, err), with_conn c dp)
              else (([], None), dp) in
            match err with
            | Some e =>
              (([], Some (Errorf "failed to read data: %w" [] (Some e))), dp)
            | None =>
              let '((_, err), c) := Read 1 (conn dp) in
              let dp := with_conn c dp in
              match err with
              | Some e =>
                (([], Some (Errorf "failed to read LRC: %w" [] (Some e))), dp)
              | None => ((readBytes, None), dp)
              end
            end
          end
        end
    end.

Definition EnterDebug (dp : DebugPort) : option error * DebugPort :=
    let '((_, err), dp) := transfer CMDEnterDebug 0 [] 0 dp in (err, dp).

Definition ExitDebug (dp : DebugPort) : option error * DebugPort :=
    let '((_, err), dp) := transfer CMDExitDebug 0 [] 0 dp in (err, dp).

Definition StopCPU (dp : DebugPort) : option error * DebugPort :=
    let '((_, err), dp) := transfer CMDStopCPU 0 [] 0 dp in (err, dp).

Definition StartCPU (dp : DebugPort) : option error * DebugPort :=
    let '((_, err), dp) := transfer CMDStartCPU 0 [] 0 dp in (err, dp).

Definition GetRevision (dp : DebugPort) : (Z * option error) * DebugPort :=
    let '((_, err), dp) := transfer CMDRevision 0 [] 0 dp in
    match err with
    | Some e => ((0, Some e), dp)
    | None => ((status1 dp, None), dp)
    end.

Definition ReadBlock (address length : Z) (dp : DebugPort)
    : (list Z * option error) * DebugPort :=
    transfer CMDReadMem address [] length dp.

Definition WriteBlock32 (address : Z) (data : list Z) (dp : DebugPort)
    : exec (option error * DebugPort) :=
    let size := uint32 (len data) in
    let addressAlign := address mod 4 in
    (* If the block is already aligned, just write it directly *)
    if (addressAlign =? 0) && (size mod 4 =? 0) then
      let '((_, err), dp) := transfer CMDWriteMem address data 0 dp in
      Done (err, dp)
    else
      (* Otherwise, we need to perform read-modify-write for alignment *)
      let adjustedAddress := uint32 (address - addressAlign) in
      let adjustedSize := uint32 (size + addressAlign) in
      (* Round size up to next multiple of 4 *)
      let sizeAlign := adjustedSize mod 4 in
      let adjustedSize :=
        if 0 <? sizeAlign then uint32 (adjustedSize + (4 - sizeAlign))
        else adjustedSize in
      (* Read the current contents from the machine's RAM *)
      let '((block, err), dp) := ReadBlock adjustedAddress (uint16 adjustedSize) dp in
      match err with
      | Some e =>
        Done (Some (Errorf "failed to read block for alignment: %w" [] (Some e)), dp)
      | None =>
        (* Verify we got the expected amount of data *)
        if negb (uint32 (len block) =? adjustedSize) then
          Done (Some (Errorf "read returned %d bytes, expected %d"
                        [ArgInt (len block); ArgInt adjustedSize] None), dp)
        else
          (* Copy the new data to the correct position within the buffer *)
          tail <- checked (slice_from block addressAlign) ;;
          let block := take (Z.to_nat addressAlign) block ++ copy tail data in
          (* Write the modified block back to the machine's RAM *)
          let '((_, err), dp) := transfer CMDWriteMem adjustedAddress block 0 dp in
          match err with
          | Some e =>
            Done (Some (Errorf "failed to write aligned block: %w" [] (Some e)), dp)
          | None => Done (None, dp)
          end
      end.

Definition WriteBlock (address : Z) (data : list Z) (dp : DebugPort)
    : exec (option error * DebugPort) :=
    if config.CPUIsM68k32 (config dp) then
      (* For 68040 and 68060, use 32-bit aligned writes *)
      WriteBlock32 address data dp
    else
      (* For other CPUs, direct write *)
      let '((_, err), dp) := transfer CMDWriteMem address data 0 dp in
      Done (err, dp).

Definition EraseFlash (dp : DebugPort) : option error * DebugPort :=
    let '((_, err), dp) := transfer CMDEraseFlash 0 [] 0 dp in (err, dp).

Definition sleep (seconds : Z) (dp : DebugPort) : DebugPort :=
    with_conn (Sleep seconds (conn dp)) dp.

  (** [EraseSector(sector uint8)]: [sector*2] and [sector*2+1] are computed
      in [uint8] before the conversion to [uint32]. *)
Definition EraseSector (sector : Z) (dp : DebugPort) : option error * DebugPort :=
    (* Erase first 4KB block *)
    let address1 := uint32 (uint32 (uint8 (sector * 2)) ≪ 16) in
    let '((_, err), dp) := transfer CMDEraseSector address1 [] 0 dp in
    match err with
    | Some e => (Some (Errorf "failed to erase first 4KB block: %w" [] (Some e)), dp)
    | None =>
      let dp := sleep DelayEraseSector dp in
      (* Erase second 4KB block *)
      let address2 := uint32 (uint32 (uint8 (uint8 (sector * 2) + 1)) ≪ 16) in
      let '((_, err), dp) := transfer CMDEraseSector address2 [] 0 dp in
      match err with
      | Some e => (Some (Errorf "failed to erase second 4KB block: %w" [] (Some e)), dp)
      | None =>
        let dp := sleep DelayEraseSector dp in
        (None, dp)
      end
    end.

Definition ProgramFlash (address : Z) (dp : DebugPort) : option error * DebugPort :=
    let '((_, err), dp) := transfer CMDProgramFlash address [] 0 dp in (err, dp).

Definition ProgramSector (sector : Z) (dp : DebugPort) : option error * DebugPort :=
    let address := uint32 (uint32 (uint8 (sector * 2)) ≪ 16) in
    let '((_, err), dp) := transfer CMDProgramSector address [] 0 dp in
    match err with
    | Some e => (Some e, dp)
    | None =>
      let dp := sleep DelayProgramSector dp in
      (None, dp)
    end.

Definition SetBootSource (source : Z) (dp : DebugPort) : option error * DebugPort :=
    if source =? BootSrcRAM then
      let '((_, err), dp) := transfer CMDBootRAM 0 [] 0 dp in (err, dp)
    else if source =? BootSrcFlash then
      let '((_, err), dp) := transfer CMDBootFlash 0 [] 0 dp in (err, dp)
    else
      (Some (Errorf "invalid boot source: %d (must be 0 for RAM or 1 for Flash)"
               [ArgInt source] None), dp).

End protocol.

(** ** strconv.ParseUint, as the standard library defines it *)

Module strconv.

Definition uint64 (z : Z) : Z := z mod 2 ^ 64.

Definition code (c : Ascii.ascii) : Z := Z.of_N (Ascii.N_of_ascii c).

Definition syntaxError (s : string) : error :=
    Errorf "strconv.ParseUint: parsing %q: invalid syntax" [ArgStr s] None.
Definition rangeError (s : string) : error :=
    Errorf "strconv.ParseUint: parsing %q: value out of range" [ArgStr s] None.

  (** The value of one digit character: [c - '0'], or [lower(c) - 'a' + 10]
      with [lower(c) = c | 0x20]. *)
Definition digit (c : Ascii.ascii) : option Z :=
    let c := code c in
    if (48 <=? c) && (c <=? 57) then Some (c - 48)
    else
      let lc := Z.lor c 0x20 in
      if (97 <=? lc) && (lc <=? 122) then Some (lc - 97 + 10) else None.

  (** The digit loop of [ParseUint]. *)
Fixpoint digits (s0 : string) (base cutoff maxVal : Z) (cs : list Ascii.ascii) (n : Z)
    : Z * option error :=
    match cs with
    | [] => (n, None)
    | c :: cs' =>
      match digit c with
      | None => (0, Some (syntaxError s0))
      | Some d =>
        if base <=? d then (0, Some (syntaxError s0))
        else if cutoff <=? n then
          (* n*base overflows *)
          (maxVal, Some (rangeError s0))
        else
          let n := uint64 (n * base) in
          let n1 := uint64 (n + d) in
          if (n1 <? n) || (maxVal <? n1) then
            (* n+d overflows *)
            (maxVal, Some (rangeError s0))
          else digits s0 base cutoff maxVal cs' n1
      end
    end.

  (** [ParseUint(s, base, bitSize)] for an explicit base between 2 and 36. *)
Definition ParseUint (s : string) (base bitSize : Z) : Z * option error :=
    if String.eqb s "" then (0, Some (syntaxError s))
    else
      let cutoff := (2 ^ 64 - 1) `quot` base + 1 in
      let maxVal := uint64 (1 ≪ bitSize) - 1 in
      digits s base cutoff maxVal (String.list_ascii_of_string s) 0.

End strconv.

(** ** Package loader *)

Module loader.

  (** [type WriteHandler func(address uint32, data []byte) error]: a closure
      over some state of the caller, threaded explicitly. *)
Definition WriteHandler (St : Type) : Type :=
    Z -> list Z -> St -> option error * St.

  (** [string(bytes)] compared with a literal: the literal's bytes. *)
Definition bytes_of_string (s : string) : list Z :=
    map (fun c => Z.of_N (Ascii.N_of_ascii c)) (String.list_ascii_of_string s).

  (** *** Reset vectors (vectors.go) *)

Section vectors.
Context {St : Type}.

Definition setup65816Vectors (startAddress : Z) (handler : WriteHandler St)
        (s : St) : option error * St :=
      if negb (Z.land startAddress 0xFF0000 =? 0) then
        (* Startup code is not in bank 0, need a stub at 0xFF80 *)
        let stub := [ 0x18; 0xFB; 0x5C;
                      uint8 startAddress;
                      uint8 (startAddress ≫ 8);
                      uint8 (startAddress ≫ 16) ] in
        let '(err, s) := handler 0xFF80 stub s in
        match err with
        | Some e => (Some (Errorf "failed to write 65816 stub: %w" [] (Some e)), s)
        | None =>
          (* Point reset vector to stub *)
          let resetVector := [0x80; 0xFF] in
          let '(err, s) := handler 0xFFFC resetVector s in
          match err with
          | Some e =>
            (Some (Errorf "failed to write 65816 reset vector: %w" [] (Some e)), s)
          | None => (None, s)
          end
        end
      else
        (* Startup code is in bank 0, point reset vector directly to it *)
        let resetVector := [ uint8 startAddress; uint8 (startAddress ≫ 8) ] in
        let '(err, s) := handler 0xFFFC resetVector s in
        match err with
        | Some e =>
          (Some (Errorf "failed to write 65816 reset vector: %w" [] (Some e)), s)
        | None => (None, s)
        end.

Definition setup65C02Vectors (startAddress : Z) (handler : WriteHandler St)
        (s : St) : option error * St :=
      let resetVector := [ uint8 startAddress; uint8 (startAddress ≫ 8) ] in
      let '(err, s) := handler 0xFFFC resetVector s in
      match err with
      | Some e => (Some (Errorf "failed to write 65C02 reset vector: %w" [] (Some e)), s)
      | None =>
        let crossdev := [0x43; 0x52; 0x4F; 0x53; 0x53; 0x44; 0x45; 0x56] in
        let '(err, s) := handler 0x0080 crossdev s in
        match err with
        | Some e => (Some (Errorf "failed to write CROSSDEV signature: %w" [] (Some e)), s)
        | None =>
          let startAddr := [ uint8 startAddress; uint8 (startAddress ≫ 8) ] in
          let '(err, s) := handler 0x0088 startAddr s in
          match err with
          | Some e =>
            (Some (Errorf "failed to write microkernel start address: %w" [] (Some e)), s)
          | None =>
            let kernelArgs := [0x00; 0x00] in
            let '(err, s) := handler 0x00FA kernelArgs s in
            match err with
            | Some e => (Some (Errorf "failed to write kernel args: %w" [] (Some e)), s)
            | None => (None, s)
            end
          end
        end
      end.

Definition setup680X0Vectors (startAddress : Z) (handler : WriteHandler St)
        (s : St) : option error * St :=
      let resetVector := [ uint8 (startAddress ≫ 24); uint8 (startAddress ≫ 16);
                           uint8 (startAddress ≫ 8); uint8 startAddress ] in
      let '(err, s) := handler 0x00000004 resetVector s in
      match err with
      | Some e => (Some (Errorf "failed to write 680x0 reset vector: %w" [] (Some e)), s)
      | None => (None, s)
      end.

Definition SetupResetVectors (cpu : string) (startAddress : Z)
        (handler : WriteHandler St) (s : St) : option error * St :=
      if String.eqb cpu "65816" then setup65816Vectors startAddress handler s
      else if String.eqb cpu "65c02" || String.eqb cpu "65C02" then
        setup65C02Vectors startAddress handler s
      else
        (* Check if it's a 680x0 variant *)
        let cfg := config.mkConfig "" 0 0 cpu 0 0 0 0 0 in
        if config.CPUIsMotorolatype680X0 cfg then
          setup680X0Vectors startAddress handler s
        else (Some (Errorf "unsupported CPU type: %s" [ArgStr cpu] None), s).

End vectors.

  (** *** WDC binary (wdc.go) *)

Module WDCLoader.
Section wdc.
Context {St : Type}.

Record WDCLoader : Type := mkWDCLoader {
        handler : option (WriteHandler St);
        data : option (list Z)
      }.

      (** [readBlock(offset int) (uint32, []byte, int, error)] on the file
          content [l.data]. *)
Definition readBlock (data : list Z) (offset : Z)
        : exec (Z * list Z * Z * option error) :=
        (* Need at least 6 bytes for address (3) + length (3) *)
        if len data <? int (offset + 6) then
          Done (0, [], offset,
                Some (Errorf "unexpected end of file at offset %d" [ArgInt offset] None))
        else
          (* Read 3-byte address (little-endian) *)
          a0 <- checked (index data offset) ;;
          a1 <- checked (index data (int (offset + 1))) ;;
          a2 <- checked (index data (int (offset + 2))) ;;
          let address :=
            Z.lor (Z.lor (uint32 a0) (uint32 (uint32 a1 ≪ 8))) (uint32 (uint32 a2 ≪ 16)) in
          (* Read 3-byte length (little-endian) *)
          l0 <- checked (index data (int (offset + 3))) ;;
          l1 <- checked (index data (int (offset + 4))) ;;
          l2 <- checked (index data (int (offset + 5))) ;;
          let length :=
            Z.lor (Z.lor (uint32 l0) (uint32 (uint32 l1 ≪ 8))) (uint32 (uint32 l2 ≪ 16)) in
          let offset := int (offset + 6) in
          (* If address is 0, this is the terminator block *)
          if address =? 0 then Done (0, [], offset, None)
          else
            (* Read data block *)
            if len data <? int (offset + int length) then
              Done (0, [], offset,
                    Some (Errorf "data block exceeds file size at offset %d"
                            [ArgInt offset] None))
            else
              src <- checked (slice data offset (int (offset + int length))) ;;
              let block := copy (make length) src in
              let offset := int (offset + int length) in
              Done (address, block, offset, None).

      (** The loop of [Process]: [for offset < len(l.data) { ... }]. *)
Fixpoint process_loop (fuel : nat) (data : list Z) (h : WriteHandler St)
          (offset : Z) (s : St) : exec (option error * St) :=
        if negb (offset <? len data) then Done (None, s)
        else match fuel with
             | O => Diverges
             | S fuel' =>
               r <- readBlock data offset ;;
               let '(address, block, newOffset, err) := r in
               match err with
               | Some e => Done (Some e, s)
               | None =>
                 let offset := newOffset in
                 (* Terminate if address is 0 *)
                 if address =? 0 then Done (None, s)
                 else
                   (* Send block to handler *)
                   let '(err, s) := h address block s in
                   match err with
                   | Some e => Done (Some (Errorf "handler failed: %w" [] (Some e)), s)
                   | None => process_loop fuel' data h offset s
                   end
               end
             end.

      (** [Process]; every pass of the loop moves [offset] forward by at
          least the six header bytes, so [len(l.data)] passes are enough. *)
Definition Process (l : WDCLoader) (s : St) : exec (option error * St) :=
        match data l with
        | None => Done (Some (Errorf "file not open" [] None), s)
        | Some d =>
          match handler l with
          | None => Done (Some (Errorf "handler not set" [] None), s)
          | Some h => process_loop (length d) d h 1 s
          end
        end.

End wdc.
Arguments WDCLoader : clear implicits.
End WDCLoader.

  (** *** PGX (wdc.go, second half) *)

Module PGXLoader.
Section pgx.
Context {St : Type}.

Record PGXLoader : Type := mkPGXLoader {
        handler : option (WriteHandler St);
        data : option (list Z);
        config : config.Config
      }.

      (** [binary.LittleEndian.Uint32(b)] *)
Definition LittleEndian_Uint32 (b : list Z) : exec Z :=
        b3 <- checked (index b 3) ;;
        b0 <- checked (index b 0) ;;
        b1 <- checked (index b 1) ;;
        b2 <- checked (index b 2) ;;
        Done (Z.lor (Z.lor (Z.lor (uint32 b0) (uint32 (uint32 b1 ≪ 8)))
                           (uint32 (uint32 b2 ≪ 16)))
                    (uint32 (uint32 b3 ≪ 24))).

Definition verifyCPUCompatibility (cfg : config.Config) (pgxCPU : Z)
        : option error :=
        if pgxCPU =? protocol.PGXcpu65816 then
          if negb (String.eqb (config.CPU cfg) "65816") then
            Some (Errorf "PGX is built for 65816, but CPU is configured as %s"
                    [ArgStr (config.CPU cfg)] None)
          else None
        else if pgxCPU =? protocol.PGXcpu65C02 then
          if negb (String.eqb (config.CPU cfg) "65C02")
             && negb (String.eqb (config.CPU cfg) "65c02") then
            Some (Errorf "PGX is built for 65C02, but CPU is configured as %s"
                    [ArgStr (config.CPU cfg)] None)
          else None
        else if pgxCPU =? protocol.PGXcpu680X0 then
          if negb (config.CPUIsMotorolatype680X0 cfg) then
            Some (Errorf "PGX is built for 680x0, but CPU is configured as %s"
                    [ArgStr (config.CPU cfg)] None)
          else None
        else Some (Errorf "unsupported PGX CPU type: 0x%02X" [ArgInt pgxCPU] None).

Definition Process (l : PGXLoader) (s : St) : exec (option error * St) :=
        match data l with
        | None => Done (Some (Errorf "file not open" [] None), s)
        | Some d =>
          match handler l with
          | None => Done (Some (Errorf "handler not set" [] None), s)
          | Some h =>
            (* Check minimum size (signature + version + address = 8 bytes) *)
            if len d <? protocol.PGXOffData then
              Done (Some (Errorf "file too small to be valid PGX" [] None), s)
            else
              (* Check signature *)
              signature <- checked (slice d protocol.PGXOffSigStart protocol.PGXOffSigEnd) ;;
              if negb (bool_decide (signature = bytes_of_string "PGX")) then
                Done (Some (Errorf "bad PGX signature: %s" [ArgBytes signature] None), s)
              else
                (* Check version *)
                versionByte <- checked (index d protocol.PGXOffVersion) ;;
                let pgxVersion := Z.land (uint8 (versionByte ≫ 4)) 0x0F in
                if 0 <? pgxVersion then
                  Done (Some (Errorf "unsupported PGX version: %d" [ArgInt pgxVersion] None), s)
                else
                  (* Check CPU compatibility *)
                  let pgxCPU := Z.land versionByte 0x0F in
                  match verifyCPUCompatibility (config l) pgxCPU with
                  | Some e => Done (Some e, s)
                  | None =>
                    (* Get target address (32-bit little-endian) *)
                    field <- checked (slice d protocol.PGXOffAddrStart protocol.PGXOffAddrEnd) ;;
                    address <- LittleEndian_Uint32 field ;;
                    (* Get data block *)
                    block <- checked (slice_from d protocol.PGXOffData) ;;
                    (* Send data to handler *)
                    let '(err, s) := h address block s in
                    match err with
                    | Some e =>
                      Done (Some (Errorf "failed to write data block: %w" [] (Some e)), s)
                    | None =>
                      (* Set up CPU-specific reset vectors *)
                      let '(err, s) :=
                        SetupResetVectors (config.CPU (config l)) address h s in
                      match err with
                      | Some e =>
                        Done (Some (Errorf "failed to set up reset vectors: %w" [] (Some e)), s)
                      | None => Done (None, s)
                      end
                    end
                  end
          end
        end.

End pgx.
Arguments PGXLoader : clear implicits.
End PGXLoader.

  (** *** PGZ (pgz.go) *)

Module PGZLoader.
Section pgz.
Context {St : Type}.

Record PGZLoader : Type := mkPGZLoader {
        handler : option (WriteHandler St);
        data : option (list Z);
        config : config.Config;
        addressSize : Z
      }.

      (** What [Open] does with the content of the file it has read: the
          header byte selects the width of the address and size fields. *)
Definition Open (content : list Z) (l : PGZLoader) : option error * PGZLoader :=
        if len content <? 1 then
          (Some (Errorf "file too small to be valid PGZ" [] None), l)
        else
          match content with
          | b :: _ =>
            if b =? 0x7A then
              (None, mkPGZLoader (handler l) (Some content) (config l) 4)
            else if b =? 0x5A then
              (None, mkPGZLoader (handler l) (Some content) (config l) 3)
            else
              (Some (Errorf "invalid PGZ header: 0x%02X (expected 0x7A or 0x5A)"
                       [ArgInt b] None), l)
          | [] => (Some (Errorf "file too small to be valid PGZ" [] None), l)
          end.

      (** [for i := 0; i < byteCount && i < len(data); i++ {
             value |= uint32(data[i]) << (i * 8) }] *)
Definition readLittleEndianInt (data : list Z) (byteCount : Z) : exec Z :=
        foldl (fun acc i =>
                 value <- acc ;;
                 if Z.of_nat i <? len data then
                   b <- checked (index data (Z.of_nat i)) ;;
                   Done (Z.lor value (uint32 (uint32 b ≪ (Z.of_nat i * 8))))
                 else Done value)
              (Done 0) (seq 0 (Z.to_nat byteCount)).

Definition readBlock (addressSize : Z) (data : list Z) (offset : Z)
        : exec (Z * list Z * Z * option error) :=
        (* Need address + size fields (addressSize bytes each) *)
        let requiredBytes := int (addressSize * 2) in
        if len data <? int (offset + requiredBytes) then
          Done (0, [], offset,
                Some (Errorf "unexpected end of file at offset %d" [ArgInt offset] None))
        else
          (* Read address (little-endian) *)
          rest <- checked (slice_from data offset) ;;
          address <- readLittleEndianInt rest addressSize ;;
          let offset := int (offset + addressSize) in
          (* Read size (little-endian) *)
          rest <- checked (slice_from data offset) ;;
          size <- readLittleEndianInt rest addressSize ;;
          let offset := int (offset + addressSize) in
          (* If address is 0, this is the terminator *)
          if address =? 0 then Done (0, [], offset, None)
          (* If size is 0, this is a start address block (no data) *)
          else if size =? 0 then Done (address, [], offset, None)
          else
            (* Read data block *)
            if len data <? int (offset + int size) then
              Done (0, [], offset,
                    Some (Errorf "data block exceeds file size at offset %d"
                            [ArgInt offset] None))
            else
              src <- checked (slice data offset (int (offset + int size))) ;;
              let block := copy (make size) src in
              let offset := int (offset + int size) in
              Done (address, block, offset, None).

Definition chunkSize : Z := 1024.

      (** [for totalLength > 0 { ... }]: the 1 KB chunking of a large block. *)
Fixpoint chunk_loop (fuel : nat) (h : WriteHandler St) (address : Z)
          (block : list Z) (totalLength chunkOffset : Z) (s : St)
        : exec (option error * St) :=
        if negb (0 <? totalLength) then Done (None, s)
        else match fuel with
             | O => Diverges
             | S fuel' =>
               let currentChunkSize :=
                 if totalLength <? chunkSize then totalLength else chunkSize in
               chunk <- checked (slice block chunkOffset (int (chunkOffset + currentChunkSize))) ;;
               let '(err, s) := h (uint32 (address + uint32 chunkOffset)) chunk s in
               match err with
               | Some e =>
                 Done (Some (Errorf "failed to write chunk at 0x%X: %w"
                               [ArgInt (uint32 (address + uint32 chunkOffset))] (Some e)), s)
               | None =>
                 chunk_loop fuel' h address block
                            (int (totalLength - currentChunkSize))
                            (int (chunkOffset + currentChunkSize)) s
               end
             end.

      (** What the body of the loop of [Process] does with a regular data
          block ([address > 0]). *)
Definition deliver_block (h : WriteHandler St) (address : Z) (block : list Z)
          (s : St) : exec (option error * St) :=
        (* Support for large blocks: chunk into 1KB pieces *)
        if chunkSize <? len block then
          let totalLength := len block in
          let chunkOffset := 0 in
          chunk_loop (length block) h address block totalLength chunkOffset s
        else
          (* Small block, send directly *)
          let '(err, s) := h address block s in
          match err with
          | Some e =>
            Done (Some (Errorf "failed to write block at 0x%X: %w" [ArgInt address] (Some e)), s)
          | None => Done (None, s)
          end.

      (** The loop of [Process]: [for offset < len(l.data) { ... }]. *)
Fixpoint process_loop (fuel : nat) (cfg : config.Config) (addressSize : Z)
          (data : list Z) (h : WriteHandler St) (offset : Z) (s : St)
        : exec (option error * St) :=
        if negb (offset <? len data) then Done (None, s)
        else match fuel with
             | O => Diverges
             | S fuel' =>
               r <- readBlock addressSize data offset ;;
               let '(address, block, newOffset, err) := r in
               match err with
               | Some e => Done (Some e, s)
               | None =>
                 let offset := newOffset in
                 (* Check for terminator (address == 0) *)
                 if address =? 0 then Done (None, s)
                 (* Check for start address block (size == 0, address > 0) *)
                 else if (len block =? 0) && (0 <? address) then
                   (* Set up CPU-specific reset vectors *)
                   let '(err, s) := SetupResetVectors (config.CPU cfg) address h s in
                   match err with
                   | Some e =>
                     Done (Some (Errorf "failed to set up reset vectors: %w" [] (Some e)), s)
                   | None => process_loop fuel' cfg addressSize data h offset s
                   end
                 (* Regular data block *)
                 else if 0 <? address then
                   r <- deliver_block h address block s ;;
                   let '(err, s) := r in
                   match err with
                   | Some e => Done (Some e, s)
                   | None => process_loop fuel' cfg addressSize data h offset s
                   end
                 else process_loop fuel' cfg addressSize data h offset s
               end
             end.

Definition Process (l : PGZLoader) (s : St) : exec (option error * St) :=
        match data l with
        | None => Done (Some (Errorf "file not open" [] None), s)
        | Some d =>
          match handler l with
          | None => Done (Some (Errorf "handler not set" [] None), s)
          | Some h => process_loop (length d) (config l) (addressSize l) d h 1 s
          end
        end.

End pgz.
Arguments PGZLoader : clear implicits.
End PGZLoader.

  (** *** Intel HEX (intelhex.go) *)

  (** [hexStringToBytes] (loader.go). [fmt.Sscanf(pair, "%02x", &b)] reads
      the two hexadecimal digits of [pair] into the byte [b]. *)
Definition Sscanf_02x (c1 c2 : Ascii.ascii) : Z * option error :=
    match strconv.digit c1, strconv.digit c2 with
    | Some d1, Some d2 =>
      if (d1 <? 16) && (d2 <? 16) then (uint8 (d1 * 16 + d2), None)
      else (0, Some (Errorf "expected integer" [] None))
    | _, _ => (0, Some (Errorf "expected integer" [] None))
    end.

Fixpoint hex_pairs (i : Z) (cs : list Ascii.ascii) : list Z * option error :=
    match cs with
    | c1 :: c2 :: rest =>
      let '(b, err) := Sscanf_02x c1 c2 in
      match err with
      | Some e => ([], Some (Errorf "invalid hex at position %d: %w" [ArgInt i] (Some e)))
      | None =>
        let '(bytes, err) := hex_pairs (i + 2) rest in
        match err with
        | Some e => ([], Some e)
        | None => (b :: bytes, None)
        end
      end
    | _ => ([], None)
    end.

Definition hexStringToBytes (hexStr : string) : list Z * option error :=
    let cs := String.list_ascii_of_string hexStr in
    if negb (len cs `rem` 2 =? 0) then
      ([], Some (Errorf "hex string length must be even" [] None))
    else hex_pairs 0 cs.

Module IntelHexLoader.

    (** A character of the class [[0-9a-fA-F]]. *)
Definition is_hex (c : Ascii.ascii) : bool :=
      let c := strconv.code c in
      ((48 <=? c) && (c <=? 57)) || ((97 <=? c) && (c <=? 102))
      || ((65 <=? c) && (c <=? 70)).

Fixpoint hex_run (cs : list Ascii.ascii) : list Ascii.ascii :=
      match cs with
      | c :: cs' => if is_hex c then c :: hex_run cs' else []
      | [] => []
      end.

    (** The submatches of a line against the pattern of [Process]: a colon,
        then five groups of hexadecimal digits, of 2, 4, 2, any number and 2
        digits.  The pattern is anchored at the start of the line only, and
        the greedy fourth group takes every hexadecimal digit of the run but
        the last two. *)
Record Submatch : Type := mkSubmatch {
      m_count : string;
      m_address : string;
      m_type : string;
      m_data : string;
      m_checksum : string
    }.

Definition FindStringSubmatch (line : string) : option Submatch :=
      match String.list_ascii_of_string line with
      | c :: rest =>
        if strconv.code c =? 58 then (* the colon *)
          let run := hex_run rest in
          let n := length run in
          if (n <? 10)%nat then None
          else
            let str := String.string_of_list_ascii in
            Some (mkSubmatch (str (take 2 run))
                             (str (take 4 (drop 2 run)))
                             (str (take 2 (drop 6 run)))
                             (str (take (n - 10) (drop 8 run)))
                             (str (drop (n - 2) run)))
        else None
      | [] => None
      end.

    (** The file as [bufio.Scanner] hands it over: its lines, and the error
        the scanner reports once they are used up. *)
Record File : Type := mkFile {
      lines : list string;
      scanErr : option error
    }.

Section intelhex.
Context {St : Type}.

Record IntelHexLoader : Type := mkIntelHexLoader {
        handler : option (WriteHandler St);
        file : option File;
        baseAddress : Z
      }.

      (** The loop [for scanner.Scan() { ... }] of [Process] together with the
          code after it; the result carries the final [l.baseAddress]. *)
Fixpoint scan (h : WriteHandler St) (scanErr : option error)
          (lines : list string) (lineNum : Z) (baseAddress : Z) (s : St)
        : option error * Z * St :=
        match lines with
        | [] =>
          match scanErr with
          | Some e => (Some (Errorf "error reading file: %w" [] (Some e)), baseAddress, s)
          | None => (None, baseAddress, s)
          end
        | line :: rest =>
          let lineNum := int (lineNum + 1) in
          (* Skip empty lines *)
          if Z.of_nat (String.length line) =? 0 then scan h scanErr rest lineNum baseAddress s
          else
            (* Parse the line *)
            match FindStringSubmatch line with
            | None =>
              (Some (Errorf "invalid Intel HEX format at line %d: %s"
                       [ArgInt lineNum; ArgStr line] None), baseAddress, s)
            | Some matches =>
              (* Extract fields *)
              let byteCount := fst (strconv.ParseUint (m_count matches) 16 8) in
              let address := fst (strconv.ParseUint (m_address matches) 16 16) in
              let recordType := fst (strconv.ParseUint (m_type matches) 16 8) in
              let dataHex := m_data matches in
              if recordType =? 0x00 then
                (* Data record *)
                let '(data, err) := hexStringToBytes dataHex in
                match err with
                | Some e =>
                  (Some (Errorf "invalid data at line %d: %w" [ArgInt lineNum] (Some e)),
                   baseAddress, s)
                | None =>
                  (* Verify byte count *)
                  if negb (len data =? byteCount) then
                    (Some (Errorf "byte count mismatch at line %d: expected %d, got %d"
                             [ArgInt lineNum; ArgInt byteCount; ArgInt (len data)] None),
                     baseAddress, s)
                  else
                    (* Send to handler with base address applied *)
                    let fullAddress := uint32 (baseAddress + uint32 address) in
                    let '(err, s) := h fullAddress data s in
                    match err with
                    | Some e =>
                      (Some (Errorf "handler failed at line %d: %w" [ArgInt lineNum] (Some e)),
                       baseAddress, s)
                    | None => scan h scanErr rest lineNum baseAddress s
                    end
                end
              else if recordType =? 0x01 then
                (* End of file: terminate processing *)
                (None, baseAddress, s)
              else if recordType =? 0x02 then
                (* Extended segment address: set bits 4-19 of the base address *)
                let segmentAddr := fst (strconv.ParseUint dataHex 16 32) in
                scan h scanErr rest lineNum (uint32 (uint32 segmentAddr ≪ 4)) s
              else if recordType =? 0x04 then
                (* Extended linear address: set bits 16-31 of the base address *)
                let extAddr := fst (strconv.ParseUint dataHex 16 32) in
                scan h scanErr rest lineNum (uint32 (uint32 extAddr ≪ 16)) s
              else if (recordType =? 0x03) || (recordType =? 0x05) then
                (* Start segment/linear address: ignored *)
                scan h scanErr rest lineNum baseAddress s
              else
                (Some (Errorf "unsupported record type 0x%02X at line %d"
                         [ArgInt recordType; ArgInt lineNum] None), baseAddress, s)
            end
        end.

Definition Process (l : IntelHexLoader) (s : St)
        : option error * IntelHexLoader * St :=
        match file l with
        | None => (Some (Errorf "file not open" [] None), l, s)
        | Some f =>
          match handler l with
          | None => (Some (Errorf "handler not set" [] None), l, s)
          | Some h =>
            let '(err, base, s) := scan h (scanErr f) (lines f) 0 (baseAddress l) s in
            (err, mkIntelHexLoader (handler l) (file l) base, s)
          end
        end.

End intelhex.
Arguments IntelHexLoader : clear implicits.
End IntelHexLoader.

End loader.

(** ** Package cmd: the flash commands (flash.go)

    The commands read global flags and the global configuration, the file
    system, the terminal and the stop marker, and talk to the hardware over
    a connection they open themselves.  What the command finds there is an
    [Env]; what it changes is a [World]: the answers still to be typed at the
    confirmation prompt, the link to the hardware, and the log of what the
    command printed, asked, opened and closed. *)

Module cmd.
Import connection protocol.

Record Env : Type := mkEnv {
    cfg : config.Config;
    portFlag : string;
    quietFlag : bool;
    flashAddress : string;
    flashSector : string;
    flashEraseFirst : bool;
    (** [util.ParseHexAddress], which rests on [fmt.Sscanf] *)
    ParseHexAddress : string -> Z * option error;
    (** [os.ReadFile] *)
    os_ReadFile : string -> list Z * option error;
    (** [util.IsStopped]: is the stop marker file present *)
    IsStopped : bool;
    (** what [conn.Open] will return *)
    OpenReply : option error
  }.

Inductive Action : Type :=
  | Printed (format : string) (args : list fmtarg)
  | Asked (prompt : string)
  | Opened (port : string)
  | Closed.

Record World : Type := mkWorld {
    answers : list bool;
    link : Conn;
    log : list Action
  }.

Definition act (a : Action) (w : World) : World :=
    mkWorld (answers w) (link w) (log w ++ [a]).

Definition validateConnectionFlags (env : Env) : option error :=
    if String.eqb (config.Port (cfg env)) "" && String.eqb (portFlag env) "" then
      Some (Errorf "no port specified (use --port flag or set in foenixmgr.ini)" [] None)
    else None.

Definition printInfo (env : Env) (format : string) (args : list fmtarg)
      (w : World) : World :=
    if negb (quietFlag env) then act (Printed format args) w else w.

  (** [util.ReadFile] *)
Definition ReadFile (env : Env) (filename : string) : list Z * option error :=
    let '(data, err) := os_ReadFile env filename in
    match err with
    | Some e => ([], Some (Errorf "failed to read file %s: %w" [ArgStr filename] (Some e)))
    | None => (data, None)
    end.

  (** [util.Confirm]: prints the prompt and reads one answer; no answer left
      is a read error, which counts as a refusal. *)
Definition Confirm (prompt : string) (w : World) : bool * World :=
    let w := act (Asked prompt) w in
    match answers w with
    | [] => (false, w)
    | a :: rest => (a, mkWorld rest (link w) (log w))
    end.

  (** The deferred calls of a command that has opened its connection, in the
      order Go runs them: [dp.ExitDebug()] when it was registered, then
      [conn.Close()]. *)
Definition run_deferred (entered : bool) (dp : DebugPort) (w : World) : World :=
    let dp := if entered then snd (ExitDebug dp) else dp in
    act Closed (mkWorld (answers w) (conn dp) (log w)).

  (** [uploadChunked]: the loop [for offset < len(data) { ... }]. *)
Fixpoint uploadChunked_loop (fuel : nat) (env : Env) (data : list Z)
      (address offset : Z) (dp : DebugPort) : exec (option error * DebugPort) :=
    if negb (offset <? len data) then Done (None, dp)
    else match fuel with
         | O => Diverges
         | S fuel' =>
           let chunkSize := config.ChunkSize (cfg env) in
           let chunkSize :=
             if len data <? int (offset + chunkSize) then int (len data - offset)
             else chunkSize in
           chunk <- checked (slice data offset (int (offset + chunkSize))) ;;
           r <- WriteBlock address chunk dp ;;
           let '(err, dp) := r in
           match err with
           | Some e =>
             Done (Some (Errorf "failed to write chunk at 0x%X: %w" [ArgInt address] (Some e)), dp)
           | None =>
             uploadChunked_loop fuel' env data (uint32 (address + uint32 chunkSize))
                                (int (offset + chunkSize)) dp
           end
         end.

Definition uploadChunked (fuel : nat) (env : Env) (dp : DebugPort)
      (startAddress : Z) (data : list Z) : exec (option error * DebugPort) :=
    uploadChunked_loop fuel env data startAddress 0 dp.

  (** [flashProgramFull] from the point where the connection is open and
      [defer conn.Close()] is registered. *)
Definition flashProgramFull_session (fuel : nat) (env : Env) (addr : Z)
      (data : list Z) (w : World) : exec (option error * World) :=
    (* Create protocol handler *)
    let dp := NewDebugPort (link w) (cfg env) in
    (* Enter debug mode *)
    let isStopped := IsStopped env in
    let '(err, dp) := if negb isStopped then EnterDebug dp else (None, dp) in
    match err with
    | Some e =>
      Done (Some (Errorf "failed to enter debug mode: %w" [] (Some e)),
            run_deferred false dp w)
    | None =>
      let entered := negb isStopped in
      (* Upload data to RAM *)
      let w := printInfo env "Uploading flash image to RAM...\n" [] w in
      r <- uploadChunked fuel env dp addr data ;;
      let '(err, dp) := r in
      match err with
      | Some e =>
        Done (Some (Errorf "upload failed: %w" [] (Some e)), run_deferred entered dp w)
      | None =>
        (* Erase flash (must happen AFTER upload to RAM, BEFORE programming) *)
        let w := printInfo env "Erasing flash memory...\n" [] w in
        let '(err, dp) := EraseFlash dp in
        match err with
        | Some e =>
          Done (Some (Errorf "flash erase failed: %w" [] (Some e)), run_deferred entered dp w)
        | None =>
          (* Program flash from RAM *)
          let w := printInfo env "Programming flash from RAM...\n" [] w in
          let '(err, dp) := ProgramFlash addr dp in
          match err with
          | Some e =>
            Done (Some (Errorf "flash programming failed: %w" [] (Some e)),
                  run_deferred entered dp w)
          | None =>
            let w := printInfo env "Flash programming complete.\n" [] w in
            Done (None, run_deferred entered dp w)
          end
        end
      end
    end.

Definition flashProgramFull (fuel : nat) (env : Env) (filename : string)
      (w : World) : exec (option error * World) :=
    match validateConnectionFlags env with
    | Some e => Done (Some e, w)
    | None =>
      (* Parse address *)
      let '(addr, err) := ParseHexAddress env (flashAddress env) in
      match err with
      | Some e => Done (Some (Errorf "invalid address: %w" [] (Some e)), w)
      | None =>
        (* Read and validate binary file *)
        let '(data, err) := ReadFile env filename in
        match err with
        | Some e => Done (Some (Errorf "failed to read file: %w" [] (Some e)), w)
        | None =>
          (* Validate file size (should match configured flash size) *)
          let w :=
            if negb (len data =? config.FlashSize (cfg env)) then
              printInfo env
                "Warning: File size (%d bytes) does not match configured flash size (%d bytes)\n"
                [ArgInt (len data); ArgInt (config.FlashSize (cfg env))] w
            else w in
          let w := printInfo env "About to upload %d bytes to address 0x%X and program flash\n"
                             [ArgInt (len data); ArgInt addr] w in
          (* Get confirmation *)
          let '(yes, w) :=
            Confirm "Are you sure you want to reprogram the flash memory? (y/n): " w in
          if negb yes then
            Done (None, printInfo env "Operation cancelled.\n" [] w)
          else
            (* Create connection *)
            let w := act (Opened (config.Port (cfg env))) w in
            match OpenReply env with
            | Some e => Done (Some (Errorf "failed to open connection: %w" [] (Some e)), w)
            | None => flashProgramFull_session fuel env addr data w
            end
        end
      end
    end.

  (** The erase-and-program step of [flashProgramSector] for one page. *)
Definition program_page (env : Env) (currentPage : Z) (dp : DebugPort) (w : World)
    : option error * DebugPort * World :=
    let w := printInfo env "Erasing flash page %d...\n" [ArgInt currentPage] w in
    let '(err, dp) := EraseSector currentPage dp in
    match err with
    | Some e => (Some (Errorf "failed to erase sector: %w" [] (Some e)), dp, w)
    | None =>
      let w := printInfo env "Programming flash page %d...\n" [ArgInt currentPage] w in
      let '(err, dp) := ProgramSector currentPage dp in
      match err with
      | Some e => (Some (Errorf "failed to program sector: %w" [] (Some e)), dp, w)
      | None => (None, dp, w)
      end
    end.

  (** The loop [for written < len(data) { ... }] of [flashProgramSector]; it
      returns the error, or the page and RAM offset it stopped at. *)
Fixpoint sector_loop (fuel : nat) (env : Env) (data : list Z)
      (ramAddress written currentPage : Z) (dp : DebugPort) (w : World)
    : exec (option error * (Z * Z) * DebugPort * World) :=
    if negb (written <? len data) then Done (None, (ramAddress, currentPage), dp, w)
    else match fuel with
         | O => Diverges
         | S fuel' =>
           (* Calculate how much to write in this chunk *)
           let toWrite := config.ChunkSize (cfg env) in
           let toWrite :=
             if int (len data - written) <? toWrite then int (len data - written)
             else toWrite in
           (* Write chunk to RAM *)
           chunk <- checked (slice data written (int (written + toWrite))) ;;
           r <- WriteBlock ramAddress chunk dp ;;
           let '(err, dp) := r in
           match err with
           | Some e =>
             Done (Some (Errorf "failed to write to RAM: %w" [] (Some e)),
                   (ramAddress, currentPage), dp, w)
           | None =>
             let written := int (written + toWrite) in
             let ramAddress := uint32 (ramAddress + uint32 toWrite) in
             (* If we've filled the RAM buffer, program the flash page *)
             if uint32 (int (config.RAMSize (cfg env) * 1024)) <=? ramAddress then
               let '(err, dp, w) := program_page env currentPage dp w in
               match err with
               | Some e => Done (Some e, (ramAddress, currentPage), dp, w)
               | None =>
                 sector_loop fuel' env data 0 written (uint8 (currentPage + 1)) dp w
               end
             else sector_loop fuel' env data ramAddress written currentPage dp w
           end
         end.

  (** [flashProgramSector] from the point where the connection is open and
      [defer conn.Close()] is registered. *)
Definition flashProgramSector_session (fuel : nat) (env : Env) (sectorNum : Z)
      (data : list Z) (w : World) : exec (option error * World) :=
    let dp := NewDebugPort (link w) (cfg env) in
    let isStopped := IsStopped env in
    let '(err, dp) := if negb isStopped then EnterDebug dp else (None, dp) in
    match err with
    | Some e =>
      Done (Some (Errorf "failed to enter debug mode: %w" [] (Some e)),
            run_deferred false dp w)
    | None =>
      let entered := negb isStopped in
      (* Calculate page information *)
      let pageSize := config.FlashPageSize (cfg env) in
      let sectorSize := config.FlashSectorSize (cfg env) in
      let pagesPerSector := sectorSize `quot` pageSize in
      let startPage := uint8 (uint8 sectorNum * uint8 pagesPerSector) in
      (* Upload and program sector in pages *)
      r <- sector_loop fuel env data 0 0 startPage dp w ;;
      let '(err, (ramAddress, currentPage), dp, w) := r in
      match err with
      | Some e => Done (Some e, run_deferred entered dp w)
      | None =>
        (* Program any remaining data *)
        let '(err, dp, w) :=
          if 0 <? ramAddress then program_page env currentPage dp w
          else (None, dp, w) in
        match err with
        | Some e => Done (Some e, run_deferred entered dp w)
        | None =>
          let w := printInfo env "Flash sector programming complete.\n" [] w in
          Done (None, run_deferred entered dp w)
        end
      end
    end.

Definition flashProgramSector (fuel : nat) (env : Env) (filename : string)
      (w : World) : exec (option error * World) :=
    match validateConnectionFlags env with
    | Some e => Done (Some e, w)
    | None =>
      (* Check if target machine supports sector programming *)
      if (config.FlashPageSize (cfg env) =? 0) || (config.FlashSectorSize (cfg env) =? 0) then
        Done (Some (Errorf
          "target machine does not support flash sector programming\nUse --target option to specify machine (f256jr, f256k, fnx1591)"
          [] None), w)
      else
        (* Parse sector number *)
        let '(sectorNum, err) := strconv.ParseUint (flashSector env) 16 8 in
        match err with
        | Some e => Done (Some (Errorf "invalid sector number: %w" [] (Some e)), w)
        | None =>
          (* Read and validate binary file *)
          let '(data, err) := ReadFile env filename in
          match err with
          | Some e => Done (Some (Errorf "failed to read file: %w" [] (Some e)), w)
          | None =>
            (* Validate file size (should be sector size in KB * 1024) *)
            let expectedSize := int (config.FlashSectorSize (cfg env) * 1024) in
            if negb (len data =? expectedSize) then
              Done (Some (Errorf "file size (%d bytes) does not match sector size (%d bytes)"
                            [ArgInt (len data); ArgInt expectedSize] None), w)
            else
              let w := printInfo env "About to upload image to sector 0x%02X\n"
                                 [ArgInt sectorNum] w in
              (* Get confirmation *)
              let '(yes, w) :=
                Confirm "Are you sure you want to reprogram the flash sector? (y/n): " w in
              if negb yes then
                Done (None, printInfo env "Operation cancelled.\n" [] w)
              else
                (* Create connection *)
                let w := act (Opened (config.Port (cfg env))) w in
                match OpenReply env with
                | Some e =>
                  Done (Some (Errorf "failed to open connection: %w" [] (Some e)), w)
                | None => flashProgramSector_session fuel env sectorNum data w
                end
          end
        end
    end.

End cmd.


(** ** Package protocol: the LRC helpers (lrc.go) *)

Module lrc.

(** [calculateLRC]: [for _, b := range data { lrc ^= b }]. *)
Definition calculateLRC (data : list Z) : Z :=
  foldl Z.lxor 0 data.

(** [verifyLRC]: the last byte of [data] must be the LRC of the bytes before
    it. *)
Definition verifyLRC (data : list Z) : exec bool :=
  if len data <? 2 then Done false
  else
    expectedLRC <- checked (index data (int (len data - 1))) ;;
    body <- checked (slice data 0 (int (len data - 1))) ;;
    let actualLRC := calculateLRC body in
    Done (expectedLRC =? actualLRC).

End lrc.

(** ** Package config: [SetTarget] (config.go)

    [strings.ToLower] is taken as it is given: the property of [SetTarget]
    below holds for every function in its place. *)

Module target.

Definition SetTarget (ToLower : string -> string) (machineName : string)
    (c : config.Config) : config.Config :=
  let machineName := ToLower machineName in
  (* Reset to defaults *)
  let flashPageSize := 0 in
  let flashSectorSize := 0 in
  let ramSize := 8 in
  let '(flashPageSize, ramSize, flashSectorSize) :=
    if String.eqb machineName "fnx1591" then (8, 8, 32)
    else if String.eqb machineName "f256k" || String.eqb machineName "f256jr" then (8, 8, 8)
    else (flashPageSize, ramSize, flashSectorSize) in
  config.mkConfig (config.Port c) (config.DataRate c) (config.Timeout c)
                  (config.CPU c) (config.ChunkSize c) (config.FlashSize c)
                  flashPageSize flashSectorSize ramSize.

End target.
(** * Vocabulary of the specification

    Definitions that follow the words of the specification rather than the
    sources; the properties below compare the embedded code with them. *)

Import connection protocol.

(** The packets handed to [Write], in order: the commands issued. *)
Definition issued (h : list Event) : list (list Z) :=
  omap (fun e => match e with Wrote p => Some p | Slept _ => None end) h.

(** The fields of a request as its peer reads them from the header: the
    command byte, the 24-bit big-endian address, the 16-bit big-endian
    length. *)
Definition decode_request (pkt : list Z) : Z * Z * Z :=
  (nth 1 pkt 0,
   nth 2 pkt 0 ≪ 16 + nth 3 pkt 0 ≪ 8 + nth 4 pkt 0,
   nth 5 pkt 0 ≪ 8 + nth 6 pkt 0).

(** The commands issued over a link, as (command, address, length). *)
Definition commands (h : list Event) : list (Z * Z * Z) :=
  map decode_request (issued h).

(** The aligned range of the alignment adapter: the address rounded down
    and the length, counted from there, rounded up to a multiple of 4. *)
Definition aligned_address (address : Z) : Z := address - address mod 4.

Definition aligned_length (address : Z) (data : list Z) : Z :=
  4 * ((len data + address mod 4 + 3) / 4).

(** [data] laid over [block] at offset [k]. *)
Definition overlay (block : list Z) (k : Z) (data : list Z) : list Z :=
  take (Z.to_nat k) block ++ data ++ drop (Z.to_nat (k + len data)) block.

(** The XOR of a list of bytes: the longitudinal redundancy check. *)
Definition xor_all (bs : list Z) : Z := foldr Z.lxor 0 bs.

(** Was the packet accepted by the connection: no error and the full count. *)
Definition write_accepted (pkt : list Z) (c : Conn) : bool :=
  match writes c with
  | WrAll :: _ => true
  | WrCount n None :: _ => n =? len pkt
  | _ => false
  end.

(** The reply that follows the response sync byte, when it is a pair of
    bytes: the two status bytes of the response. *)
Definition status_reply (rs : list ReadReply) : option (Z * Z) :=
  match rs with
  | RdBytes [s0; s1] :: _ => Some (s0, s1)
  | _ => None
  end.

(** The status bytes a peer's replies carry: single bytes are skipped until
    the response sync byte arrives, and the next reply holds the status. *)
Fixpoint received_status (rs : list ReadReply) : option (Z * Z) :=
  match rs with
  | RdBytes [b] :: rest =>
    if b =? ResponseSyncByte then status_reply rest else received_status rest
  | _ => None
  end.


(** ** Write operations and memory *)

(** A write operation: the address and the bytes a loader hands to the
    write-sink. *)
Definition WriteOp : Type := Z * list Z.

(** The write-sink that accepts every write and records it. *)
Definition record : loader.WriteHandler (list WriteOp) :=
  fun address data ops => (None, ops ++ [(address, data)]).

(** Offering write operations to a sink in order, up to its first refusal. *)
Fixpoint deliver {St} (h : loader.WriteHandler St) (ops : list WriteOp) (s : St)
  : option error * St :=
  match ops with
  | [] => (None, s)
  | (address, data) :: rest =>
    match h address data s with
    | (Some e, s') => (Some e, s')
    | (None, s') => deliver h rest s'
    end
  end.




(** ** Block parsing *)

(** What [readBlock] returns, for either loader: a block that lies inside
    the buffer, or one of the two errors of its bounds checks. *)
Definition block_in_bounds (data : list Z) (header : Z) (offset : Z)
    (r : exec (Z * list Z * Z * option error)) : Prop :=
  match r with
  | Done (_, block, newOffset, None) =>
    offset + header <= newOffset <= len data
    /\ block = take (Z.to_nat (newOffset - (offset + header)))
                    (drop (Z.to_nat (offset + header)) data)
  | Done (_, _, _, Some e) =>
    (len data < offset + header
     /\ e = Errorf "unexpected end of file at offset %d" [ArgInt offset] None)
    \/ (offset + header <= len data
        /\ e = Errorf "data block exceeds file size at offset %d"
                 [ArgInt (offset + header)] None)
  | Panics | Diverges => False
  end.

(** ** Flash commands *)









(** The warning [flashProgramFull] prints about the size of the image. *)
Definition size_warning (env : cmd.Env) (data : list Z) : cmd.Action :=
  cmd.Printed
    "Warning: File size (%d bytes) does not match configured flash size (%d bytes)\n"
    [ArgInt (len data); ArgInt (config.FlashSize (cmd.cfg env))].



(** Did a command touch the hardware: open the connection or use the link. *)
Definition hardware_untouched (w w' : cmd.World) : Prop :=
  cmd.link w' = cmd.link w
  /\ cmd.answers w' = cmd.answers w
  /\ cmd.log w' = cmd.log w.

(** ** Intel HEX records *)

(** The upper-case hexadecimal digit of a value below 16. *)
Definition hex_char (d : Z) : Ascii.ascii :=
  Ascii.ascii_of_N (Z.to_N (if d <? 10 then 48 + d else 55 + d)).

(** A byte as two hexadecimal digits, and a byte string as digits. *)
Definition hex_byte (b : Z) : list Ascii.ascii :=
  [hex_char (b / 16); hex_char (b mod 16)].

Definition hex_bytes (bs : list Z) : list Ascii.ascii :=
  flat_map hex_byte bs.

(** The line of an Intel HEX record: colon, byte count, 16-bit address,
    record type, data, checksum. *)
Definition record_line (address type : Z) (data : list Z) (checksum : Z) : string :=
  String.string_of_list_ascii
    (Ascii.ascii_of_N 58
     :: hex_byte (len data)
        ++ (hex_byte (address / 256) ++ hex_byte (address mod 256))
        ++ hex_byte type ++ hex_bytes data ++ hex_byte checksum).

(** The two data bytes of an extended-address record carrying [value]. *)
Definition word_bytes (value : Z) : list Z := [value / 256; value mod 256].

(** ** PGX headers *)

(** The CPU families a PGX file can be built for. *)
Inductive Family : Type := F65816 | F680X0 | F65C02.

(** The id by which a PGX header names a family: 1, 2 and 3. *)
Definition family_id (f : Family) : Z :=
  match f with
  | F65816 => 1
  | F680X0 => 2
  | F65C02 => 3
  end.

(** The family of a configured CPU. *)
Definition cpu_family (cpu : string) : option Family :=
  if String.eqb cpu "65816" then Some F65816
  else if String.eqb cpu "65C02" || String.eqb cpu "65c02" then Some F65C02
  else if String.eqb cpu "m68k" || String.eqb cpu "68000"
          || String.eqb cpu "68040" || String.eqb cpu "68060" then Some F680X0
  else None.

(** The two nibbles of the header byte at offset 3 of a PGX file. *)
Definition version_nibble (d : list Z) : Z := Z.land (nth 3 d 0 ≫ 4) 0x0F.
Definition cpu_nibble (d : list Z) : Z := Z.land (nth 3 d 0) 0x0F.

(** Does the CPU id of the header name the family of the configured CPU. *)
Definition cpu_id_matches (d : list Z) (cpu : string) : bool :=
  match cpu_family cpu with
  | Some f => family_id f =? cpu_nibble d
  | None => false
  end.

(** A PGX file that is long enough and carries the signature. *)
Definition pgx_framed (d : list Z) : Prop :=
  8 <= len d /\ take 3 d = [0x50; 0x47; 0x58].

(** The 32-bit little-endian load address at offset 4 of a PGX file. *)
Definition pgx_address (d : list Z) : Z :=
  nth 4 d 0 + nth 5 d 0 * 2 ^ 8 + nth 6 d 0 * 2 ^ 16 + nth 7 d 0 * 2 ^ 24.

(** File content whose elements are bytes. *)
Definition bytes (d : list Z) : Prop := Forall (fun b => 0 <= b < 256) d.

(** The error messages with which [transfer] gives up before the status
    bytes of the response have arrived. *)
Definition fails_before_status (e : error) : Prop :=
  format_of e = "failed to write packet: %w"%string
  \/ format_of e = "incomplete write: wrote %d bytes, expected %d"%string
  \/ format_of e = "failed to read sync byte: %w"%string.

(** ** Sample data *)

Module sample.

(** The configuration [config.Load] builds when the ini file sets nothing,
    with no target selected. *)
Definition cfg : config.Config :=
  config.mkConfig "COM3" 6000000 60 "65c02" 4096 524288 0 0 8.

(** The same for a 68040 machine. *)
Definition cfg68040 : config.Config :=
  config.mkConfig "COM3" 6000000 60 "68040" 4096 524288 0 0 8.

(** The replies of a target to a command without payload: the response sync
    byte, two status bytes, the checksum. *)
Definition ack (s0 s1 : Z) : list ReadReply :=
  [RdBytes [0xAA]; RdBytes [s0; s1]; RdBytes [0]].

(** A debug port whose link is down. *)
Definition dead_port : DebugPort :=
  mkDebugPort (mkConn [] [] []) cfg 7 9.

(** A debug port that will answer [n] commands without payload. *)
Definition live_port (cfg : config.Config) (n : nat) : DebugPort :=
  mkDebugPort (mkConn (concat (replicate n (ack 0 0))) (replicate n WrAll) []) cfg 0 0.

(** A 68040 target that answers a 4-byte read with four bytes 7 and then
    accepts a write. *)
Definition patch_port : DebugPort :=
  mkDebugPort
    (mkConn ([RdBytes [0xAA]; RdBytes [0; 0]; RdBytes [7; 7; 7; 7]; RdBytes [0]] ++ ack 0 0)
            [WrAll; WrAll] [])
    cfg68040 0 0.

(** A PGX file for the 680x0 family: signature, version 0 and CPU id 2, load
    address 0x00380000, four bytes of payload. *)
Definition pgx_file : list Z :=
  [0x50; 0x47; 0x58; 0x02; 0x00; 0x00; 0x38; 0x00; 1; 2; 3; 4].

(** The same file with version nibble 1. *)
Definition pgx_file_v1 : list Z :=
  [0x50; 0x47; 0x58; 0x12; 0x00; 0x00; 0x38; 0x00; 1; 2; 3; 4].

(** A WDC file: the tag, one block of two bytes at 0x001000, the
    terminator. *)
Definition wdc_file : list Z :=
  [0x5A; 0x00; 0x10; 0x00; 0x02; 0x00; 0x00; 0xAA; 0xBB;
   0x00; 0x00; 0x00; 0x00; 0x00; 0x00].

(** The settings of an F256K ([SetTarget "f256k"]): 8 KB pages and sectors. *)
Definition cfg_f256k : config.Config :=
  config.mkConfig "COM3" 6000000 60 "65c02" 4096 524288 8 8 8.

(** A command line [flash image.bin --address 380000 --flash-sector 01]
    in a directory where every file holds sixteen bytes. *)
Definition env : cmd.Env :=
  cmd.mkEnv cfg_f256k "" false "380000" "01" false
            (fun _ => (0x380000, None))
            (fun _ => (replicate 16 0xEA, None))
            false None.

(** A user who answers yes, and a target that acknowledges twenty
    commands. *)
Definition world : cmd.World :=
  cmd.mkWorld [true]
              (mkConn (concat (replicate 20 (ack 0 0))) (replicate 20 WrAll) []) [].

End sample.

(** ** More vocabulary *)

(** The error formats with which [transfer] can give up. *)
Definition transfer_failure (format : string) : Prop :=
  In format
     [ "failed to write packet: %w"%string;
       "incomplete write: wrote %d bytes, expected %d"%string;
       "failed to read sync byte: %w"%string;
       "failed to read status bytes: %w"%string;
       "failed to read data: %w"%string;
       "failed to read LRC: %w"%string ].

(** The write operations by which a CPU of the family is made to start at
    [entry]. *)
Definition family_vectors (f : Family) (entry : Z) : list WriteOp :=
  match f with
  | F65816 =>
    if Z.land entry 0xFF0000 =? 0 then
      [ (0xFFFC, [entry mod 256; (entry ≫ 8) mod 256]) ]
    else
      [ (0xFF80, [0x18; 0xFB; 0x5C;
                  entry mod 256; (entry ≫ 8) mod 256; (entry ≫ 16) mod 256]);
        (0xFFFC, [0x80; 0xFF]) ]
  | F65C02 =>
    [ (0xFFFC, [entry mod 256; (entry ≫ 8) mod 256]);
      (0x0080, [0x43; 0x52; 0x4F; 0x53; 0x53; 0x44; 0x45; 0x56]);
      (0x0088, [entry mod 256; (entry ≫ 8) mod 256]);
      (0x00FA, [0x00; 0x00]) ]
  | F680X0 =>
    [ (0x00000004, [(entry ≫ 24) mod 256; (entry ≫ 16) mod 256;
                    (entry ≫ 8) mod 256; entry mod 256]) ]
  end.

(** Four bytes as a big-endian number. *)
Definition big_endian_32 (bs : list Z) : Z :=
  nth 0 bs 0 * 2 ^ 24 + nth 1 bs 0 * 2 ^ 16 + nth 2 bs 0 * 2 ^ 8 + nth 3 bs 0.

(** Does a log entry record the opening or closing of the connection. *)
Definition touches_connection (a : cmd.Action) : bool :=
  match a with
  | cmd.Opened _ | cmd.Closed => true
  | _ => false
  end.

(** ** WDC images *)

(** A value below 2^24 as three bytes, least significant first. *)
Definition le24 (v : Z) : list Z := [v mod 256; (v / 256) mod 256; (v / 65536) mod 256].

(** The block of a WDC file that carries one write: address, length, data. *)
Definition wdc_block (op : WriteOp) : list Z :=
  le24 (fst op) ++ le24 (len (snd op)) ++ snd op.

Fixpoint wdc_blocks (ops : list WriteOp) : list Z :=
  match ops with
  | [] => []
  | op :: rest => wdc_block op ++ wdc_blocks rest
  end.

(** A write a WDC block can carry: a non-zero 24-bit address and fewer than
    2^24 bytes. *)
Definition wdc_op_ok (op : WriteOp) : Prop :=
  0 < fst op < 2 ^ 24 /\ len (snd op) < 2 ^ 24.

(** What may follow the blocks: the end of the file, or a block header with
    address zero and anything after it. *)
Definition wdc_end (tail : list Z) : Prop :=
  tail = [] \/ exists l0 l1 l2 rest, tail = 0 :: 0 :: 0 :: l0 :: l1 :: l2 :: rest.
(** * Properties *)

(** ** Machine integers *)

Lemma uint8_range z : 0 <= uint8 z < 256.
Proof. unfold uint8. apply Z.mod_pos_bound. lia. Qed.

Lemma uint8_small z : 0 <= z < 256 -> uint8 z = z.
Proof. intros H. unfold uint8. apply Z.mod_small. lia. Qed.

Lemma uint16_small z : 0 <= z < 65536 -> uint16 z = z.
Proof. intros H. unfold uint16. apply Z.mod_small. lia. Qed.

Lemma uint32_small z : 0 <= z < 2 ^ 32 -> uint32 z = z.
Proof. intros H. unfold uint32. apply Z.mod_small. lia. Qed.

Lemma int_small z : - 2 ^ 63 <= z < 2 ^ 63 -> int z = z.
Proof. intros H. unfold int. rewrite Z.mod_small; lia. Qed.

Lemma len_nonneg {A} (s : list A) : 0 <= len s.
Proof. unfold len. lia. Qed.

Lemma len_app {A} (s t : list A) : len (s ++ t) = len s + len t.
Proof. unfold len. rewrite length_app. lia. Qed.

(** ** The transport *)

Lemma issued_app h1 h2 : issued (h1 ++ h2) = issued h1 ++ issued h2.
Proof. unfold issued. apply omap_app. Qed.

Lemma Read_history n c : history (snd (Read n c)) = history c.
Proof.
  unfold Read. destruct (reads c) as [|[bs|e] rest]; simpl; auto.
  destruct (len bs =? n); reflexivity.
Qed.

Lemma Read_reads n c :
  length (reads (snd (Read n c))) = Nat.pred (length (reads c)).
Proof.
  unfold Read. destruct (reads c) as [|[bs|e] rest] eqn:E; simpl; auto.
  - rewrite E. reflexivity.
  - destruct (len bs =? n); reflexivity.
Qed.

Lemma Read_exact n c bs c' : Read n c = ((bs, None), c') -> len bs = n.
Proof.
  unfold Read. destruct (reads c) as [|[bs0|e] rest]; try discriminate.
  destruct (len bs0 =? n) eqn:E; intros H; inversion H; subst. lia.
Qed.

Lemma Read_closed n c : reads c = [] -> snd (fst (Read n c)) <> None.
Proof. intros H. unfold Read. rewrite H. discriminate. Qed.

Lemma Read_history_eq n c r c' : Read n c = (r, c') -> history c' = history c.
Proof. intros H. rewrite <- (Read_history n c), H. reflexivity. Qed.

Lemma await_sync_history fuel : forall b c r c',
  await_sync fuel b c = (r, c') -> history c' = history c.
Proof.
  induction fuel as [|k IH]; intros b c r c'; simpl.
  - destruct (b =? ResponseSyncByte); intros H; inversion H; reflexivity.
  - destruct (b =? ResponseSyncByte); [intros H; inversion H; reflexivity|].
    destruct (Read 1 c) as [[buf [e|]] c1] eqn:E.
    + intros H; inversion H; subst. eapply Read_history_eq; eauto.
    + intros H. apply IH in H. rewrite H. eapply Read_history_eq; eauto.
Qed.

Lemma Write_history data c r c' :
  Write data c = (r, c') -> history c' = history c ++ [Wrote data].
Proof.
  unfold Write. destruct (writes c) as [|[|n e] rest]; intros H; inversion H; reflexivity.
Qed.

(** The sync loop returns: one pass more than there are scripted replies is
    always enough fuel. *)
Lemma await_sync_total fuel : forall b c,
  (length (reads c) < fuel)%nat -> fst (await_sync fuel b c) <> None.
Proof.
  induction fuel as [|k IH]; intros b c Hlt; [lia|]. simpl.
  destruct (b =? ResponseSyncByte); [discriminate|].
  destruct (Read 1 c) as [[buf [e|]] c'] eqn:E; simpl; [discriminate|].
  apply IH.
  pose proof (Read_reads 1 c) as Hr. rewrite E in Hr. simpl in Hr.
  destruct (reads c) eqn:Hc.
  - exfalso. pose proof (Read_closed 1 c Hc) as Hn. rewrite E in Hn. auto.
  - simpl in *. lia.
Qed.

(** ** [transfer] *)

#[local] Arguments await_sync : simpl never.
#[local] Arguments Read : simpl never.
#[local] Arguments Write : simpl never.
#[local] Arguments packet : simpl never.
#[local] Arguments sleep : simpl never.

(** Every call of [transfer] hands exactly one packet to the connection. *)
Lemma transfer_history command address data readLength dp :
  history (conn (snd (transfer command address data readLength dp)))
  = history (conn dp) ++ [Wrote (packet command address data readLength)].
Proof.
  unfold transfer.
  destruct (Write _ _) as [[written err] c] eqn:EW.
  apply Write_history in EW. simpl in EW.
  destruct err as [e|]; simpl; [exact EW|].
  destruct (negb _); simpl; [exact EW|].
  destruct (await_sync _ _ _) as [synced c1] eqn:ES.
  apply await_sync_history in ES. simpl in ES. rewrite <- EW, <- ES.
  destruct synced as [[e|]|]; simpl; try reflexivity.
  destruct (Read 2 _) as [[statusBytes err] c2] eqn:E2.
  apply Read_history_eq in E2. simpl in E2. rewrite <- E2.
  destruct err as [e|]; simpl; [reflexivity|].
  destruct (0 <? readLength).
  - destruct (Read readLength _) as [[bs err] c3] eqn:E3.
    apply Read_history_eq in E3. simpl in E3. rewrite <- E3.
    destruct err as [e|]; simpl; [reflexivity|].
    destruct (Read 1 _) as [[x err] c4] eqn:E4.
    apply Read_history_eq in E4. simpl in E4. rewrite <- E4.
    destruct err; reflexivity.
  - simpl.
    destruct (Read 1 _) as [[x err] c4] eqn:E4.
    apply Read_history_eq in E4. simpl in E4. rewrite <- E4.
    destruct err; reflexivity.
Qed.

Lemma foldl_lxor data : forall a, foldl Z.lxor a data = Z.lxor a (xor_all data).
Proof.
  induction data as [|b data IH]; intros a; simpl.
  - rewrite Z.lxor_0_r. reflexivity.
  - rewrite IH, Z.lxor_assoc. reflexivity.
Qed.

Lemma len_zero_nil {A} (s : list A) : (0 <? len s) = false -> s = [].
Proof.
  intros H. apply Z.ltb_ge in H. destruct s; [reflexivity|].
  unfold len in H. simpl in H. lia.
Qed.

Lemma packet_layout command address data readLength :
  let length := if 0 <? len data then uint16 (len data) else readLength in
  let hdr := header command address length in
  packet command address data readLength
  = hdr ++ data ++ [xor_all (take 6 hdr ++ data)].
Proof.
  unfold packet. destruct (0 <? len data) eqn:E; cbv zeta.
  - rewrite <- app_assoc. f_equal. f_equal. f_equal.
    rewrite foldl_lxor. unfold lrc_header, header. simpl.
    rewrite !Z.lxor_assoc, Z.lxor_0_l. reflexivity.
  - apply len_zero_nil in E. subst data. simpl. do 7 f_equal.
    unfold lrc_header, header. simpl.
    rewrite !Z.lxor_assoc, Z.lxor_0_l, Z.lxor_0_r. reflexivity.
Qed.

(** C1. For every request [transfer] sends, the packet handed to the
    connection is the 7-byte header, then the data, then one checksum byte,
    and that byte is the XOR of the header bytes at offsets 0 to 5 (sync
    byte, command, the three address bytes, the high length byte) and of
    every data byte; the low length byte at offset 6 is left out. *)
Theorem transfer_checksum command address data readLength dp :
  let length := if 0 <? len data then uint16 (len data) else readLength in
  let hdr := [ RequestSyncByte; command;
               uint8 (address ≫ 16); uint8 (address ≫ 8); uint8 address;
               uint8 (length ≫ 8); uint8 length ] in
  let lrc :=
    Z.lxor RequestSyncByte (Z.lxor command
      (Z.lxor (uint8 (address ≫ 16)) (Z.lxor (uint8 (address ≫ 8))
        (Z.lxor (uint8 address) (Z.lxor (uint8 (length ≫ 8)) (xor_all data)))))) in
  history (conn (snd (transfer command address data readLength dp)))
  = history (conn dp) ++ [Wrote (hdr ++ data ++ [lrc])].
Proof.
  cbv zeta. rewrite transfer_history, packet_layout. reflexivity.
Qed.

(** ** The session status bytes *)

Lemma Read_one_inv c :
  match Read 1 c with
  | ((buf, None), c') => exists b, buf = [b] /\ reads c = RdBytes [b] :: reads c'
                                   /\ writes c' = writes c
  | ((_, Some _), _) => received_status (reads c) = None
  end.
Proof.
  unfold Read. destruct (reads c) as [|[bs|e] rest] eqn:E; simpl; auto.
  destruct (len bs =? 1) eqn:El.
  - apply Z.eqb_eq in El. destruct bs as [|b [|b' bs]]; unfold len in El; simpl in El; try lia.
    exists b. auto.
  - apply Z.eqb_neq in El. destruct bs as [|b [|b' bs]]; auto.
    unfold len in El. simpl in El. lia.
Qed.

Lemma await_sync_hit fuel c :
  await_sync fuel ResponseSyncByte c = (Some None, c).
Proof. destruct fuel; reflexivity. Qed.

Lemma await_sync_status fuel : forall b c,
  (length (reads c) < fuel)%nat -> b <> ResponseSyncByte ->
  match await_sync fuel b c with
  | (Some None, c') => received_status (reads c) = status_reply (reads c')
  | (Some (Some _), _) => received_status (reads c) = None
  | (None, _) => False
  end.
Proof.
  induction fuel as [|k IH]; intros b c Hlt Hb; [lia|].
  unfold await_sync; fold await_sync.
  apply Z.eqb_neq in Hb. rewrite Hb.
  pose proof (Read_one_inv c) as HR.
  destruct (Read 1 c) as [[buf [e|]] c'] eqn:E; [exact HR|].
  destruct HR as (b1 & -> & Hreads & _). simpl nth.
  rewrite Hreads. simpl received_status.
  destruct (b1 =? ResponseSyncByte) eqn:Eb.
  - apply Z.eqb_eq in Eb. subst b1. rewrite await_sync_hit. reflexivity.
  - apply IH.
    + rewrite Hreads in Hlt. simpl in Hlt. lia.
    + apply Z.eqb_neq. exact Eb.
Qed.

Lemma Read_two_inv c :
  match Read 2 c with
  | ((buf, None), c') => exists s0 s1, buf = [s0; s1] /\ status_reply (reads c) = Some (s0, s1)
  | ((_, Some _), _) => status_reply (reads c) = None
  end.
Proof.
  unfold Read. destruct (reads c) as [|[bs|e] rest] eqn:E; simpl; auto.
  destruct (len bs =? 2) eqn:El.
  - apply Z.eqb_eq in El.
    destruct bs as [|s0 [|s1 [|s2 bs]]]; unfold len in El; simpl in El; try lia.
    exists s0, s1. auto.
  - apply Z.eqb_neq in El. destruct bs as [|s0 [|s1 [|s2 bs]]]; auto.
    unfold len in El. simpl in El. lia.
Qed.

Lemma Write_accepted pkt c :
  match Write pkt c with
  | ((written, None), c') =>
    write_accepted pkt c = (written =? len pkt) /\ reads c' = reads c
  | ((_, Some _), _) => write_accepted pkt c = false
  end.
Proof.
  unfold Write, write_accepted.
  destruct (writes c) as [|[|n [e|]] rest]; simpl; auto.
  rewrite Z.eqb_refl. auto.
Qed.

(** The status bytes after a call of [transfer], whatever they were before. *)
Lemma transfer_status command address data readLength dp :
  let dp' := snd (transfer command address data readLength dp) in
  (GetStatus0 dp', GetStatus1 dp')
  = if write_accepted (packet command address data readLength) (conn dp)
    then match received_status (reads (conn dp)) with
         | Some status => status
         | None => (0, 0)
         end
    else (0, 0).
Proof.
  unfold transfer.
  pose proof (Write_accepted (packet command address data readLength) (conn dp)) as HW.
  simpl conn at 1.
  destruct (Write _ _) as [[written [e|]] c] eqn:EW; simpl.
  { rewrite HW. reflexivity. }
  destruct HW as [-> Hreads].
  destruct (written =? _) eqn:Ewr; simpl; [|reflexivity].
  pose proof (await_sync_status (S (length (reads c))) 0 c) as HS.
  destruct (await_sync _ _ _) as [synced c1] eqn:ES.
  rewrite <- Hreads.
  destruct synced as [[e|]|]; simpl.
  - rewrite HS; [reflexivity|lia|discriminate].
  - rewrite HS; [|lia|discriminate].
    pose proof (Read_two_inv c1) as H2.
    destruct (Read 2 c1) as [[statusBytes [e|]] c2] eqn:E2; simpl.
    + rewrite H2. reflexivity.
    + destruct H2 as (s0 & s1 & -> & ->). simpl.
      destruct (0 <? readLength).
      * destruct (Read readLength _) as [[bs [e|]] c3]; simpl; [reflexivity|].
        destruct (Read 1 _) as [[x [e|]] c4]; reflexivity.
      * simpl. destruct (Read 1 _) as [[x [e|]] c4]; reflexivity.
  - exfalso. apply HS; [lia|discriminate].
Qed.

(** C9. Every call of [transfer] first resets both stored status bytes: what
    they were before has no influence on its result or on the session it
    leaves.  It then sets them to the two status bytes of the response
    exactly when these are read, that is when the packet was accepted and the
    peer's replies carry a status after the response sync byte; in every
    other case they stay 0.  So after a transfer that fails before the status
    bytes arrive (write failure, incomplete write, sync byte not read),
    [GetStatus0] and [GetStatus1] both return 0. *)
Theorem transfer_status_bytes command address data readLength dp :
  let r := transfer command address data readLength dp in
  (forall s0 s1,
     transfer command address data readLength (with_status s0 s1 dp) = r)
  /\ (GetStatus0 (snd r), GetStatus1 (snd r))
     = (if write_accepted (packet command address data readLength) (conn dp)
        then match received_status (reads (conn dp)) with
             | Some status => status
             | None => (0, 0)
             end
        else (0, 0))
  /\ (forall e, snd (fst r) = Some e -> fails_before_status e ->
        GetStatus0 (snd r) = 0 /\ GetStatus1 (snd r) = 0).
Proof.
  cbv zeta. split; [|split].
  - intros s0 s1. reflexivity.
  - apply transfer_status.
  - intros e He Hf.
    assert (GetStatus0 (snd (transfer command address data readLength dp)) = 0
            /\ GetStatus1 (snd (transfer command address data readLength dp)) = 0
            \/ ~ fails_before_status e) as [H|H]; [|exact H|contradiction].
    revert He. clear Hf. unfold transfer, fails_before_status.
    destruct (Write _ _) as [[written [e1|]] c]; simpl; [auto|].
    destruct (negb _); simpl; [auto|].
    destruct (await_sync _ _ _) as [[[e1|]|] c1]; simpl; [auto| |auto].
    destruct (Read 2 _) as [[statusBytes [e1|]] c2]; simpl; [auto|].
    destruct (0 <? readLength).
    + destruct (Read readLength _) as [[bs [e1|]] c3]; simpl.
      * intros He. inversion He; subst. right. simpl.
        intros [H|[H|H]]; discriminate H.
      * destruct (Read 1 _) as [[x [e1|]] c4]; simpl; [|discriminate].
        intros He. inversion He; subst. right. simpl.
        intros [H|[H|H]]; discriminate H.
    + simpl. destruct (Read 1 _) as [[x [e1|]] c4]; simpl; [|discriminate].
      intros He. inversion He; subst. right. simpl.
      intros [H|[H|H]]; discriminate H.
Qed.

Lemma transfer_status_bytes_witness :
  GetStatus0 (snd (transfer CMDRevision 0 [] 0 sample.dead_port)) = 0
  /\ GetStatus1 (snd (transfer CMDRevision 0 [] 0 sample.dead_port)) = 0.
Proof.
  apply (proj2 (proj2 (transfer_status_bytes CMDRevision 0 [] 0 sample.dead_port))
           (Errorf "failed to write packet: %w" [] (Some ErrClosed))).
  - reflexivity.
  - left. reflexivity.
Defined.

(** ** Commands on the wire *)

Lemma commands_app h1 h2 : commands (h1 ++ h2) = commands h1 ++ commands h2.
Proof. unfold commands. rewrite issued_app, map_app. reflexivity. Qed.

Lemma address_bytes a :
  0 <= a < 2 ^ 24 ->
  uint8 (a ≫ 16) ≪ 16 + uint8 (a ≫ 8) ≪ 8 + uint8 a = a.
Proof.
  intros H. unfold uint8.
  rewrite !Z.shiftr_div_pow2, !Z.shiftl_mul_pow2 by lia.
  change (2 ^ 16) with 65536. change (2 ^ 8) with 256. change (2 ^ 24) with 16777216 in H.
  Z.div_mod_to_equations. lia.
Qed.

Lemma length_bytes n :
  0 <= n < 2 ^ 16 -> uint8 (n ≫ 8) ≪ 8 + uint8 n = n.
Proof.
  intros H. unfold uint8.
  rewrite !Z.shiftr_div_pow2, !Z.shiftl_mul_pow2 by lia.
  change (2 ^ 8) with 256. change (2 ^ 16) with 65536 in H.
  Z.div_mod_to_equations. lia.
Qed.

(** A request decodes to the command, address and length it was built for,
    as long as they fit their fields. *)
Lemma decode_packet command address data readLength :
  0 <= address < 2 ^ 24 ->
  0 <= (if 0 <? len data then uint16 (len data) else readLength) < 2 ^ 16 ->
  decode_request (packet command address data readLength)
  = (command, address, if 0 <? len data then uint16 (len data) else readLength).
Proof.
  intros Ha Hl. rewrite packet_layout. cbv zeta. unfold decode_request, header.
  simpl. rewrite address_bytes, length_bytes by assumption. reflexivity.
Qed.

Lemma transfer_commands command address data readLength dp :
  commands (history (conn (snd (transfer command address data readLength dp))))
  = commands (history (conn dp))
    ++ [decode_request (packet command address data readLength)].
Proof. rewrite transfer_history, commands_app. reflexivity. Qed.


(** ** Sector addressing *)








(** ** The alignment adapter *)

(** Linear arithmetic after the quotients and remainders are named. *)
Ltac mlia := solve [lia | Z.div_mod_to_equations; lia].

(** A successful [transfer] returns exactly the bytes asked for. *)
Lemma transfer_ok_len command address data readLength dp bs dp' :
  transfer command address data readLength dp = ((bs, None), dp') ->
  if 0 <? readLength then len bs = readLength else bs = [].
Proof.
  unfold transfer.
  destruct (Write _ _) as [[written [e|]] c]; simpl; [discriminate|].
  destruct (negb _); simpl; [discriminate|].
  destruct (await_sync _ _ _) as [[[e|]|] c1]; simpl; try discriminate.
  destruct (Read 2 _) as [[statusBytes [e|]] c2]; simpl; [discriminate|].
  destruct (0 <? readLength).
  - destruct (Read readLength _) as [[bs3 [e|]] c3] eqn:E3; simpl; [discriminate|].
    destruct (Read 1 _) as [[x [e|]] c4]; simpl; [discriminate|].
    intros H. inversion H; subst. eapply Read_exact; eauto.
  - simpl. destruct (Read 1 _) as [[x [e|]] c4]; simpl; [discriminate|].
    intros H. inversion H; subst. reflexivity.
Qed.

Lemma round_up_4 n :
  0 <= n ->
  (if 0 <? n mod 4 then n + (4 - n mod 4) else n) = 4 * ((n + 3) / 4).
Proof.
  intros Hn. destruct (0 <? n mod 4) eqn:E.
  - apply Z.ltb_lt in E. Z.div_mod_to_equations. lia.
  - apply Z.ltb_ge in E. Z.div_mod_to_equations. lia.
Qed.

Lemma slice_from_drop {A} (s : list A) k :
  0 <= k <= len s -> slice_from s k = Some (drop (Z.to_nat k) s).
Proof.
  intros H. unfold slice_from, slice.
  replace ((0 <=? k) && (k <=? len s) && (len s <=? len s)) with true
    by (symmetry; rewrite !andb_true_iff, !Z.leb_le; lia).
  f_equal. apply take_ge. rewrite length_drop. unfold len in *. lia.
Qed.

(** Laying [data] over a buffer at an offset, when it fits. *)
Lemma overlay_copy (block data : list Z) k :
  0 <= k -> k + len data <= len block ->
  take (Z.to_nat k) block ++ copy (drop (Z.to_nat k) block) data
  = take (Z.to_nat k) block ++ data ++ drop (Z.to_nat (k + len data)) block.
Proof.
  intros Hk Hfit. f_equal. unfold copy.
  rewrite take_ge by (rewrite length_drop; unfold len in *; lia).
  f_equal. rewrite drop_drop. f_equal. unfold len. lia.
Qed.

Lemma transfer_issued command address data readLength dp :
  issued (history (conn (snd (transfer command address data readLength dp))))
  = issued (history (conn dp)) ++ [packet command address data readLength].
Proof. rewrite transfer_history, issued_app. reflexivity. Qed.

Lemma ReadBlock_len address length dp block dp' :
  0 <= length ->
  ReadBlock address length dp = ((block, None), dp') -> len block = length.
Proof.
  intros Hl H. unfold ReadBlock in H.
  pose proof (transfer_ok_len _ _ _ _ _ _ _ H) as H'.
  clear H. rename H' into H.
  destruct (0 <? length) eqn:E; [exact H|].
  apply Z.ltb_ge in E. subst block. unfold len. simpl. lia.
Qed.

(** C3, as the code has it. For every address and data (of fewer than
    2^32 - 6 bytes): if [address % 4 == 0] and [len(data) % 4 == 0],
    [WriteBlock32] issues exactly one direct write of [data] at [address].
    Otherwise it issues exactly one read at [alignedAddress = address -
    address % 4], asking for [alignedLength mod 65536] bytes, where
    [alignedLength = roundUpToMultipleOf4(len(data) + address % 4)]; the
    length field of a request has 16 bits.  When that transfer fails the
    adapter fails and issues nothing more.  When [alignedLength] is 65536 or
    more the bytes read cannot be [alignedLength] many, so the adapter fails
    and issues nothing more.  In every other case the read returns
    [alignedLength] bytes and the adapter issues exactly one write back to
    [alignedAddress], whose buffer is the buffer read with [data] laid over
    it at offset [address % 4]; the adapter succeeds exactly when that write
    does. *)
Theorem WriteBlock32_adapter address data dp :
  0 <= address < 2 ^ 32 -> len data < 2 ^ 32 - 6 ->
  let before := issued (history (conn dp)) in
  if (address mod 4 =? 0) && (len data mod 4 =? 0) then
    let w := transfer CMDWriteMem address data 0 dp in
    WriteBlock32 address data dp = Done (snd (fst w), snd w)
    /\ issued (history (conn (snd w))) = before ++ [packet CMDWriteMem address data 0]
  else
    let A := aligned_address address in
    let L := aligned_length address data in
    let read := packet CMDReadMem A [] (L mod 2 ^ 16) in
    match transfer CMDReadMem A [] (L mod 2 ^ 16) dp with
    | ((_, Some e), dp1) =>
      WriteBlock32 address data dp
      = Done (Some (Errorf "failed to read block for alignment: %w" [] (Some e)), dp1)
      /\ issued (history (conn dp1)) = before ++ [read]
    | ((block, None), dp1) =>
      if L <? 2 ^ 16 then
        len block = L
        /\ let buffer := overlay block (address mod 4) data in
           let w := transfer CMDWriteMem A buffer 0 dp1 in
           (exists err, WriteBlock32 address data dp = Done (err, snd w)
                        /\ (err = None <-> snd (fst w) = None))
           /\ issued (history (conn (snd w)))
              = before ++ [read; packet CMDWriteMem A buffer 0]
      else
        WriteBlock32 address data dp
        = Done (Some (Errorf "read returned %d bytes, expected %d"
                        [ArgInt (len block); ArgInt L] None), dp1)
        /\ issued (history (conn dp1)) = before ++ [read]
    end.
Proof.
  intros Ha Hd. cbv zeta.
  pose proof (len_nonneg data) as Hn.
  pose proof (Z.mod_pos_bound address 4 ltac:(mlia)) as Hal.
  unfold WriteBlock32.
  rewrite (uint32_small (len data)) by mlia.
  destruct ((address mod 4 =? 0) && (len data mod 4 =? 0)) eqn:Ealigned.
  { pose proof (transfer_issued CMDWriteMem address data 0 dp) as T.
    destruct (transfer CMDWriteMem address data 0 dp) as [[bs err] dp1].
    split; [reflexivity|exact T]. }
  rewrite (uint32_small (address - address mod 4)) by mlia.
  rewrite (uint32_small (len data + address mod 4)) by mlia.
  pose proof (round_up_4 (len data + address mod 4) ltac:(mlia)) as HR.
  fold (aligned_length address data) in HR.
  assert (HL : 4 <= aligned_length address data < 2 ^ 32).
  { unfold aligned_length.
    assert (0 < len data + address mod 4).
    { apply andb_false_iff in Ealigned. destruct Ealigned as [E|E]; apply Z.eqb_neq in E.
      - mlia.
      - destruct (Z.eq_dec (len data) 0) as [E0|E0]; [rewrite E0 in E; simpl in E|]; mlia. }
    split; Z.div_mod_to_equations; mlia. }
  assert (HS : (if 0 <? (len data + address mod 4) mod 4
                then uint32 (len data + address mod 4 + (4 - (len data + address mod 4) mod 4))
                else len data + address mod 4) = aligned_length address data).
  { rewrite <- HR. destruct (0 <? _); [|reflexivity]. apply uint32_small.
    destruct (0 <? (len data + address mod 4) mod 4) eqn:E; mlia. }
  rewrite HS. fold (aligned_address address). unfold uint16.
  set (A := aligned_address address). set (L := aligned_length address data) in *.
  pose proof (transfer_issued CMDReadMem A [] (L mod 2 ^ 16) dp) as T.
  pose proof (ReadBlock_len A (L mod 2 ^ 16) dp) as RL.
  unfold ReadBlock in *.
  destruct (transfer CMDReadMem A [] (L mod 2 ^ 16) dp) as [[block [e|]] dp1];
    cbn [fst snd] in *.
  { split; [reflexivity|exact T]. }
  specialize (RL block dp1 ltac:(apply Z.mod_pos_bound; mlia) eq_refl).
  rewrite (uint32_small (len block)) by (rewrite RL; pose proof (Z.mod_pos_bound L (2 ^ 16)); mlia).
  destruct (L <? 2 ^ 16) eqn:EL.
  - apply Z.ltb_lt in EL. rewrite (Z.mod_small L (2 ^ 16)) in * by lia.
    rewrite RL, Z.eqb_refl. cbn [negb].
    rewrite slice_from_drop by mlia. cbn [checked exec_bind].
    rewrite overlay_copy by (unfold L, aligned_length in *; Z.div_mod_to_equations; mlia).
    fold (overlay block (address mod 4) data).
    split; [reflexivity|].
    pose proof (transfer_issued CMDWriteMem A (overlay block (address mod 4) data) 0 dp1) as T2.
    rewrite T, <- app_assoc in T2.
    destruct (transfer CMDWriteMem A (overlay block (address mod 4) data) 0 dp1)
      as [[bs [e|]] dp2]; cbn [fst snd] in *.
    + split; [|exact T2]. eexists. split; [reflexivity|]. split; discriminate.
    + split; [|exact T2]. eexists. split; [reflexivity|]. split; reflexivity.
  - apply Z.ltb_ge in EL.
    assert (len block <> L).
    { rewrite RL. pose proof (Z.mod_pos_bound L (2 ^ 16) ltac:(mlia)). mlia. }
    replace (len block =? L) with false by (symmetry; apply Z.eqb_neq; assumption).
    cbn [negb]. split; [reflexivity|exact T].
Qed.

Lemma WriteBlock32_adapter_witness :
  exists dp',
    WriteBlock32 0x1001 [1; 2] sample.patch_port = Done (None, dp')
    /\ issued (history (conn dp'))
       = [ packet CMDReadMem 0x1000 [] 4;
           packet CMDWriteMem 0x1000 [7; 1; 2; 7] 0 ].
Proof.
  pose proof (WriteBlock32_adapter 0x1001 [1; 2] sample.patch_port
                ltac:(lia) ltac:(vm_compute; reflexivity)) as H.
  vm_compute in H. destruct H as [_ [[err [Hrun [_ Hok]]] Hissued]].
  rewrite (Hok eq_refl) in Hrun.
  eexists. split; [exact Hrun|]. vm_compute. exact Hissued.
Defined.

(** C3 as stated fails for large blocks: for 65535 bytes at address 1 the
    aligned length is 65536, the one read the adapter issues asks for 0
    bytes, and although the target answers it the adapter fails without
    writing anything back. *)
Lemma WriteBlock32_large_block :
  let data := replicate (Z.to_nat 65535) 0 in
  let dp := sample.live_port sample.cfg68040 2 in
  aligned_length 1 data = 65536
  /\ exists dp',
       WriteBlock32 1 data dp
       = Done (Some (Errorf "read returned %d bytes, expected %d"
                       [ArgInt 0; ArgInt 65536] None), dp')
       /\ commands (history (conn dp')) = [(CMDReadMem, 0, 0)]
       /\ commands (history (conn dp'))
          <> [(CMDReadMem, aligned_address 1, aligned_length 1 data);
              (CMDWriteMem, aligned_address 1, aligned_length 1 data)].
Proof.
  cbv zeta. split; [vm_compute; reflexivity|].
  eexists. split; [vm_compute; reflexivity|].
  split; [vm_compute; reflexivity|]. vm_compute. discriminate.
Qed.

(** ** Reset vectors *)

Lemma deliver_record ops : forall log, deliver record ops log = (None, log ++ ops).
Proof.
  induction ops as [|[a d] ops IH]; intros log; simpl.
  - rewrite app_nil_r. reflexivity.
  - rewrite IH, <- app_assoc. reflexivity.
Qed.

Lemma reset_vectors_65816_sink {St} entry (h : loader.WriteHandler St) s :
  snd (loader.setup65816Vectors entry h s) = snd (deliver h (family_vectors F65816 entry) s)
  /\ (fst (loader.setup65816Vectors entry h s) = None
      <-> fst (deliver h (family_vectors F65816 entry) s) = None).
Proof.
  unfold loader.setup65816Vectors, family_vectors.
  destruct (Z.land entry 0xFF0000 =? 0); cbn [negb].
  - simpl.
    destruct (h 0xFFFC _ s) as [[e|] s1]; simpl; split; try reflexivity;
      split; discriminate.
  - simpl. unfold uint8. change (2 ^ 8) with 256.
    destruct (h 0xFF80 _ s) as [[e|] s1]; simpl.
    + split; [reflexivity|]. split; discriminate.
    + destruct (h 0xFFFC _ s1) as [[e|] s2]; simpl; split; try reflexivity;
        split; discriminate.
Qed.

(** C4. For every entry address the 65816 reset-vector configurator offers
    the sink, in order and up to the sink's first refusal, exactly these
    write operations: when [entry & 0xFF0000 != 0], two of them, the 6-byte
    stub [18 FB 5C] followed by the 24-bit little-endian entry address at
    [0xFF80] and then the bytes [80 FF] at [0xFFFC]; when
    [entry & 0xFF0000 == 0], one, the 16-bit little-endian entry address at
    [0xFFFC].  A sink that accepts every write receives exactly these. *)
Theorem reset_vectors_65816 entry :
  let ops :=
    if Z.land entry 0xFF0000 =? 0 then
      [ (0xFFFC, [entry mod 256; (entry ≫ 8) mod 256]) ]
    else
      [ (0xFF80, [0x18; 0xFB; 0x5C;
                  entry mod 256; (entry ≫ 8) mod 256; (entry ≫ 16) mod 256]);
        (0xFFFC, [0x80; 0xFF]) ] in
  loader.setup65816Vectors entry record [] = (None, ops)
  /\ forall St (h : loader.WriteHandler St) (s : St),
       snd (loader.setup65816Vectors entry h s) = snd (deliver h ops s)
       /\ (fst (loader.setup65816Vectors entry h s) = None
           <-> fst (deliver h ops s) = None).
Proof.
  cbv zeta. unfold loader.setup65816Vectors.
  destruct (Z.land entry 0xFF0000 =? 0); cbn [negb]; split; try reflexivity.
  - intros St h s. simpl.
    destruct (h 0xFFFC _ s) as [[e|] s1]; simpl; split; try reflexivity;
      split; discriminate.
  - intros St h s. simpl. unfold uint8. change (2 ^ 8) with 256.
    destruct (h 0xFF80 _ s) as [[e|] s1]; simpl.
    + split; [reflexivity|]. split; discriminate.
    + destruct (h 0xFFFC _ s1) as [[e|] s2]; simpl; split; try reflexivity;
        split; discriminate.
Qed.

(** The two cases the specification works out. *)
Example reset_vectors_65816_bank1 :
  loader.setup65816Vectors 0x018000 record []
  = (None, [ (0xFF80, [0x18; 0xFB; 0x5C; 0x00; 0x80; 0x01]); (0xFFFC, [0x80; 0xFF]) ]).
Proof. reflexivity. Qed.

Example reset_vectors_65816_bank0 :
  loader.setup65816Vectors 0x008000 record [] = (None, [ (0xFFFC, [0x00; 0x80]) ]).
Proof. reflexivity. Qed.

(** ** PGX *)

Lemma cpu_compatibility cfg (d : list Z) :
  loader.PGXLoader.verifyCPUCompatibility cfg (cpu_nibble d) = None
  <-> cpu_id_matches d (config.CPU cfg) = true.
Proof.
  unfold loader.PGXLoader.verifyCPUCompatibility, cpu_id_matches, cpu_family,
    config.CPUIsMotorolatype680X0, PGXcpu65816, PGXcpu65C02, PGXcpu680X0.
  set (n := cpu_nibble d). set (cpu := config.CPU cfg).
  destruct (n =? 1) eqn:E1.
  { apply Z.eqb_eq in E1. rewrite E1.
    destruct (String.eqb cpu "65816"); simpl; [split; reflexivity|].
    destruct (String.eqb cpu "65C02" || String.eqb cpu "65c02"); simpl;
      [split; discriminate|].
    destruct (String.eqb cpu "m68k" || String.eqb cpu "68000"
              || String.eqb cpu "68040" || String.eqb cpu "68060"); simpl;
      split; discriminate. }
  destruct (n =? 3) eqn:E3.
  { apply Z.eqb_eq in E3. rewrite E3.
    destruct (String.eqb cpu "65816") eqn:Ec; simpl.
    - apply String.eqb_eq in Ec. rewrite Ec. simpl. split; discriminate.
    - destruct (String.eqb cpu "65C02"), (String.eqb cpu "65c02"); simpl;
        try (split; reflexivity).
      destruct (String.eqb cpu "m68k" || String.eqb cpu "68000"
                || String.eqb cpu "68040" || String.eqb cpu "68060"); simpl;
        split; discriminate. }
  destruct (n =? 2) eqn:E2.
  { apply Z.eqb_eq in E2. rewrite E2.
    destruct (String.eqb cpu "65816") eqn:Ec; simpl.
    - apply String.eqb_eq in Ec. rewrite Ec. simpl. split; discriminate.
    - destruct (String.eqb cpu "65C02" || String.eqb cpu "65c02") eqn:Ec2; simpl.
      + apply orb_true_iff in Ec2.
        destruct Ec2 as [H|H]; apply String.eqb_eq in H; rewrite H; simpl;
          split; discriminate.
      + destruct (String.eqb cpu "m68k" || String.eqb cpu "68000"
                  || String.eqb cpu "68040" || String.eqb cpu "68060"); simpl;
          split; try reflexivity; discriminate. }
  split; [discriminate|].
  intros H. exfalso. revert H.
  destruct (String.eqb cpu "65816");
    [cbn [family_id]; rewrite Z.eqb_sym, E1; discriminate|].
  destruct (String.eqb cpu "65C02" || String.eqb cpu "65c02");
    [cbn [family_id]; rewrite Z.eqb_sym, E3; discriminate|].
  destruct (String.eqb cpu "m68k" || String.eqb cpu "68000"
            || String.eqb cpu "68040" || String.eqb cpu "68060");
    [cbn [family_id]; rewrite Z.eqb_sym, E2; discriminate|discriminate].
Qed.

Lemma lor_disjoint x y k :
  0 <= k -> 0 <= x < 2 ^ k -> Z.lor x (y * 2 ^ k) = x + y * 2 ^ k.
Proof.
  intros Hk Hx.
  assert (H0 : Z.land x (y * 2 ^ k) = 0).
  { apply Z.bits_inj'. intros n Hn. rewrite Z.land_spec, Z.bits_0.
    destruct (Z.lt_ge_cases n k) as [Hlt|Hge].
    - rewrite <- Z.shiftl_mul_pow2 by lia.
      rewrite (Z.shiftl_spec_low y k n) by lia. apply andb_false_r.
    - rewrite <- (Z.mod_small x (2 ^ k)) by lia.
      rewrite Z.mod_pow2_bits_high by lia. reflexivity. }
  pose proof (Z.add_lor_land x (y * 2 ^ k)) as H. lia.
Qed.

(** Four bytes read as a little-endian [uint32]. *)
Lemma little_endian_32 b0 b1 b2 b3 :
  0 <= b0 < 256 -> 0 <= b1 < 256 -> 0 <= b2 < 256 -> 0 <= b3 < 256 ->
  Z.lor (Z.lor (Z.lor (uint32 b0) (uint32 (uint32 b1 ≪ 8)))
               (uint32 (uint32 b2 ≪ 16)))
        (uint32 (uint32 b3 ≪ 24))
  = b0 + b1 * 2 ^ 8 + b2 * 2 ^ 16 + b3 * 2 ^ 24.
Proof.
  intros H0 H1 H2 H3.
  rewrite !Z.shiftl_mul_pow2 by lia.
  rewrite (uint32_small b0), (uint32_small b1), (uint32_small b2), (uint32_small b3) by lia.
  change (2 ^ 8) with 256. change (2 ^ 16) with 65536. change (2 ^ 24) with 16777216.
  rewrite !uint32_small by lia.
  change 256 with (2 ^ 8). change 65536 with (2 ^ 16). change 16777216 with (2 ^ 24).
  rewrite (lor_disjoint b0 b1 8) by (change (2 ^ 8) with 256; lia).
  rewrite (lor_disjoint (b0 + b1 * 2 ^ 8) b2 16)
    by (change (2 ^ 8) with 256; change (2 ^ 16) with 65536; lia).
  rewrite (lor_disjoint (b0 + b1 * 2 ^ 8 + b2 * 2 ^ 16) b3 24)
    by (change (2 ^ 8) with 256; change (2 ^ 16) with 65536;
        change (2 ^ 24) with 16777216; lia).
  reflexivity.
Qed.

Lemma index_nth (d : list Z) i :
  0 <= i < len d -> index d i = Some (nth (Z.to_nat i) d 0).
Proof.
  intros H. unfold index.
  replace ((0 <=? i) && (i <? len d)) with true
    by (symmetry; rewrite andb_true_iff, Z.leb_le, Z.ltb_lt; lia).
  destruct (lookup_lt_is_Some_2 d (Z.to_nat i)) as [x Hx]; [unfold len in H; lia|].
  rewrite Hx. f_equal. symmetry. apply nth_lookup_Some. exact Hx.
Qed.

Lemma slice_take_drop {A} (s : list A) lo hi :
  0 <= lo <= hi -> hi <= len s ->
  slice s lo hi = Some (take (Z.to_nat (hi - lo)) (drop (Z.to_nat lo) s)).
Proof.
  intros H1 H2. unfold slice.
  replace ((0 <=? lo) && (lo <=? hi) && (hi <=? len s)) with true
    by (symmetry; rewrite !andb_true_iff, !Z.leb_le; lia).
  reflexivity.
Qed.

Lemma nibble_of_byte x : Z.land (uint8 (x ≫ 4)) 0x0F = Z.land (x ≫ 4) 0x0F.
Proof.
  unfold uint8. change 0x0F with (Z.ones 4).
  rewrite !Z.land_ones by lia.
  apply Z.mod_mod_divide. exists (2 ^ 4). reflexivity.
Qed.

Lemma SetupResetVectors_record cpu address log :
  exists ops, snd (loader.SetupResetVectors cpu address record log) = log ++ ops.
Proof.
  unfold loader.SetupResetVectors.
  destruct (String.eqb cpu "65816").
  { unfold loader.setup65816Vectors.
    destruct (negb _); simpl; eexists; rewrite <- ?app_assoc; reflexivity. }
  destruct (String.eqb cpu "65c02" || String.eqb cpu "65C02").
  { simpl. eexists. rewrite <- !app_assoc. reflexivity. }
  destruct (config.CPUIsMotorolatype680X0 _).
  - simpl. eexists. reflexivity.
  - simpl. exists []. rewrite app_nil_r. reflexivity.
Qed.

Lemma version_nibble_nonneg d : 0 <= version_nibble d.
Proof.
  unfold version_nibble. change 0x0F with (Z.ones 4).
  rewrite Z.land_ones by lia. apply Z.mod_pos_bound. lia.
Qed.

Lemma pgx_header_fails d cfg log :
  version_nibble d <> 0 \/ cpu_id_matches d (config.CPU cfg) = false ->
  exists e,
    loader.PGXLoader.Process (loader.PGXLoader.mkPGXLoader (Some record) (Some d) cfg) log
    = Done (Some e, log).
Proof.
  intros Hbad. unfold loader.PGXLoader.Process.
  cbn [loader.PGXLoader.data loader.PGXLoader.handler loader.PGXLoader.config].
  unfold PGXOffData, PGXOffSigStart, PGXOffSigEnd, PGXOffVersion.
  destruct (len d <? 8) eqn:Elen; [eexists; reflexivity|].
  apply Z.ltb_ge in Elen.
  rewrite slice_take_drop by lia. cbn [checked exec_bind].
  destruct (negb (bool_decide _)); [eexists; reflexivity|].
  rewrite index_nth by lia. cbn [checked exec_bind].
  change (Z.to_nat 3) with 3%nat.
  rewrite nibble_of_byte. fold (version_nibble d).
  destruct (0 <? version_nibble d) eqn:Ev; [eexists; reflexivity|].
  apply Z.ltb_ge in Ev. pose proof (version_nibble_nonneg d) as Hv.
  destruct Hbad as [Hbad|Hbad]; [lia|].
  fold (cpu_nibble d).
  destruct (loader.PGXLoader.verifyCPUCompatibility cfg (cpu_nibble d)) as [e|] eqn:Ec;
    [eexists; reflexivity|].
  apply cpu_compatibility in Ec. congruence.
Qed.

Lemma pgx_payload_delivered d cfg log :
  pgx_framed d -> bytes d ->
  version_nibble d = 0 -> cpu_id_matches d (config.CPU cfg) = true ->
  exists r rest,
    loader.PGXLoader.Process (loader.PGXLoader.mkPGXLoader (Some record) (Some d) cfg) log
    = Done (r, log ++ (pgx_address d, drop 8 d) :: rest).
Proof.
  intros [Hlen Hsig] Hb Hv Hc. unfold loader.PGXLoader.Process.
  cbn [loader.PGXLoader.data loader.PGXLoader.handler loader.PGXLoader.config].
  unfold PGXOffData, PGXOffSigStart, PGXOffSigEnd, PGXOffVersion,
    PGXOffAddrStart, PGXOffAddrEnd.
  replace (len d <? 8) with false by (symmetry; apply Z.ltb_ge; lia).
  rewrite slice_take_drop by lia. cbn [checked exec_bind].
  change (Z.to_nat (3 - 0)) with 3%nat. change (Z.to_nat 0) with 0%nat.
  rewrite drop_0, Hsig.
  change (bool_decide ([80; 71; 88] = loader.bytes_of_string "PGX")) with true.
  cbn [negb].
  rewrite index_nth by lia. cbn [checked exec_bind].
  change (Z.to_nat 3) with 3%nat.
  rewrite nibble_of_byte. fold (version_nibble d). rewrite Hv. cbn [Z.ltb Z.compare].
  fold (cpu_nibble d).
  apply cpu_compatibility in Hc. rewrite Hc.
  rewrite slice_take_drop by lia. cbn [checked exec_bind].
  rewrite slice_from_drop by lia. 
  change (Z.to_nat (8 - 4)) with 4%nat. change (Z.to_nat 4) with 4%nat.
  change (Z.to_nat 8) with 8%nat.
  destruct d as [|x0 [|x1 [|x2 [|x3 [|x4 [|x5 [|x6 [|x7 d']]]]]]]];
    try (unfold len in Hlen; simpl in Hlen; lia).
  unfold bytes in Hb.
  repeat match goal with
         | H : Forall _ (_ :: _) |- _ => apply Forall_cons_1 in H; destruct H
         end.
  unfold loader.PGXLoader.LittleEndian_Uint32.
  cbn [take drop]. unfold index. cbn [len length Z.of_nat].
  simpl. rewrite little_endian_32 by assumption.
  unfold pgx_address. cbn [nth].
  destruct (SetupResetVectors_record (config.CPU cfg)
              (x4 + x5 * 2 ^ 8 + x6 * 2 ^ 16 + x7 * 2 ^ 24)
              (log ++ [(x4 + x5 * 2 ^ 8 + x6 * 2 ^ 16 + x7 * 2 ^ 24, d')])) as [ops Hops].
  unfold record at 1.
  destruct (loader.SetupResetVectors _ _ _ _) as [[e|] log2]; simpl in Hops; subst log2;
    eexists; exists ops; rewrite <- app_assoc; reflexivity.
Qed.

(** C6. PGX processing fails with an error, before the write-sink is invoked
    at all, whenever the version nibble of the header byte is not 0 or the
    CPU id nibble (1 = 65816, 3 = 65C02, 2 = 680x0 family) does not name the
    family of the configured CPU; so a run in which the sink received
    anything had both checks pass.  For a file that is long enough and
    carries the signature, both checks passing means the payload is
    delivered: the sink's first write is the rest of the file at the
    little-endian load address of the header. *)
Theorem pgx_header_checks d cfg log :
  let l := loader.PGXLoader.mkPGXLoader (Some record) (Some d) cfg in
  (version_nibble d <> 0 \/ cpu_id_matches d (config.CPU cfg) = false ->
   exists e, loader.PGXLoader.Process l log = Done (Some e, log))
  /\ (forall r log',
        loader.PGXLoader.Process l log = Done (r, log') -> log' <> log ->
        version_nibble d = 0 /\ cpu_id_matches d (config.CPU cfg) = true)
  /\ (pgx_framed d -> bytes d ->
      version_nibble d = 0 -> cpu_id_matches d (config.CPU cfg) = true ->
      exists r rest,
        loader.PGXLoader.Process l log
        = Done (r, log ++ (pgx_address d, drop 8 d) :: rest)).
Proof.
  cbv zeta. split; [|split].
  - apply pgx_header_fails.
  - intros r log' Hrun Hlog.
    destruct (Z.eq_dec (version_nibble d) 0) as [Hv|Hv].
    + destruct (cpu_id_matches d (config.CPU cfg)) eqn:Hc; [split; auto|].
      destruct (pgx_header_fails d cfg log (or_intror Hc)) as [e He].
      rewrite He in Hrun. inversion Hrun. congruence.
    + destruct (pgx_header_fails d cfg log (or_introl Hv)) as [e He].
      rewrite He in Hrun. inversion Hrun. congruence.
  - apply pgx_payload_delivered.
Qed.

(** The file of the specification's example: version 0, CPU id 2, load
    address 0x00380000, four bytes of payload; and the same file with a
    version nibble of 1. *)
Lemma pgx_header_checks_witness :
  (exists r rest,
     loader.PGXLoader.Process
       (loader.PGXLoader.mkPGXLoader (Some record) (Some sample.pgx_file) sample.cfg68040) []
     = Done (r, [] ++ (0x380000, [1; 2; 3; 4]) :: rest))
  /\ (exists e,
       loader.PGXLoader.Process
         (loader.PGXLoader.mkPGXLoader (Some record) (Some sample.pgx_file_v1) sample.cfg68040) []
       = Done (Some e, [])).
Proof.
  split.
  - apply (proj2 (proj2 (pgx_header_checks sample.pgx_file sample.cfg68040 []))).
    + split; [vm_compute; discriminate | reflexivity].
    + repeat constructor; lia.
    + reflexivity.
    + reflexivity.
  - apply (proj1 (pgx_header_checks sample.pgx_file_v1 sample.cfg68040 [])).
    left. vm_compute. discriminate.
Defined.

(** ** PGZ: chunked delivery *)








Lemma chunk_loop_done fuel {St} (h : loader.WriteHandler St) a block off s :
  loader.PGZLoader.chunk_loop fuel h a block 0 off s = Done (None, s).
Proof. destruct fuel; reflexivity. Qed.





(** A block of 2500 bytes reaches the sink as pieces of 1024, 1024 and 452
    bytes at consecutive addresses. *)
Example pgz_chunks_2500 :
  match loader.PGZLoader.deliver_block record 0x1000 (replicate (Z.to_nat 2500) 7) [] with
  | Done (None, ops) => map (fun op => (fst op, len (snd op))) ops
  | _ => []
  end = [(0x1000, 1024); (0x1400, 1024); (0x1800, 452)].
Proof. vm_compute. reflexivity. Qed.

(** ** Block parsing stays inside the buffer *)

Lemma lor_bound a b n :
  0 <= n -> 0 <= a < 2 ^ n -> 0 <= b < 2 ^ n -> 0 <= Z.lor a b < 2 ^ n.
Proof.
  intros Hn Ha Hb. split; [apply Z.lor_nonneg; lia|].
  destruct (Z.eq_dec a 0) as [->|Ha0]; [rewrite Z.lor_0_l; lia|].
  destruct (Z.eq_dec b 0) as [->|Hb0]; [rewrite Z.lor_0_r; lia|].
  assert (0 < Z.lor a b).
  { pose proof (Z.lor_nonneg a b) as [_ H]. specialize (H ltac:(lia)).
    destruct (Z.eq_dec (Z.lor a b) 0) as [E|E]; [|lia].
    apply Z.lor_eq_0_iff in E. lia. }
  apply Z.log2_lt_pow2; [lia|].
  rewrite Z.log2_lor by lia.
  apply Z.max_lub_lt; apply Z.log2_lt_pow2; lia.
Qed.

Lemma uint32_range z : 0 <= uint32 z < 2 ^ 32.
Proof. unfold uint32. apply Z.mod_pos_bound. lia. Qed.

Lemma length_make n : length (make n) = Z.to_nat n.
Proof. unfold make. apply length_replicate. Qed.

Lemma copy_full (dst src : list Z) : length dst = length src -> copy dst src = src.
Proof.
  intros H. unfold copy. rewrite take_ge by lia. rewrite drop_ge by lia.
  apply app_nil_r.
Qed.

Lemma wdc_readBlock_in_bounds data offset :
  0 <= offset < 2 ^ 62 -> len data < 2 ^ 62 ->
  block_in_bounds data 6 offset (loader.WDCLoader.readBlock data offset).
Proof.
  intros Ho Hd. unfold loader.WDCLoader.readBlock.
  rewrite !(int_small (offset + _)) by lia.
  destruct (len data <? offset + 6) eqn:E.
  { apply Z.ltb_lt in E. simpl. left. auto. }
  apply Z.ltb_ge in E.
  rewrite !index_nth by lia. cbn [checked exec_bind].
  set (address := Z.lor (Z.lor _ _) _).
  set (length := Z.lor (Z.lor _ _) _).
  assert (Hl : 0 <= length < 2 ^ 32).
  { unfold length. repeat apply lor_bound; try lia; apply uint32_range. }
  destruct (address =? 0).
  { simpl. split; [lia|]. rewrite Z.sub_diag. reflexivity. }
  rewrite (int_small length) by lia.
  rewrite (int_small (offset + 6 + length)) by lia.
  destruct (len data <? offset + 6 + length) eqn:E2.
  { simpl. right. auto. }
  apply Z.ltb_ge in E2.
  rewrite slice_take_drop by lia. cbn [checked exec_bind].
  unfold block_in_bounds. split; [lia|].
  replace (offset + 6 + length - (offset + 6)) with length by lia.
  apply copy_full.
  rewrite length_make, length_take, length_drop. unfold len in *. lia.
Qed.

Lemma little_endian_fold (data : list Z) idx : forall v0,
  0 <= v0 < 2 ^ 32 ->
  exists v,
    foldl (fun acc i =>
             value <- acc ;;
             if Z.of_nat i <? len data then
               b <- checked (index data (Z.of_nat i)) ;;
               Done (Z.lor value (uint32 (uint32 b ≪ (Z.of_nat i * 8))))
             else Done value)
          (Done v0) idx = Done v
    /\ 0 <= v < 2 ^ 32.
Proof.
  induction idx as [|i idx IH]; intros v0 Hv0; cbn [foldl].
  - exists v0. auto.
  - cbn [exec_bind].
    destruct (Z.of_nat i <? len data) eqn:E.
    + apply Z.ltb_lt in E. rewrite index_nth by lia. cbn [checked exec_bind].
      apply IH. apply lor_bound; [lia|assumption|apply uint32_range].
    + apply IH. assumption.
Qed.

Lemma readLittleEndianInt_total (data : list Z) byteCount :
  exists v, loader.PGZLoader.readLittleEndianInt data byteCount = Done v
            /\ 0 <= v < 2 ^ 32.
Proof. apply little_endian_fold. lia. Qed.

Lemma pgz_readBlock_in_bounds addressSize data offset :
  addressSize = 3 \/ addressSize = 4 ->
  0 <= offset < 2 ^ 62 -> len data < 2 ^ 62 ->
  block_in_bounds data (2 * addressSize) offset
                  (loader.PGZLoader.readBlock addressSize data offset).
Proof.
  intros Hsz Ho Hd. unfold loader.PGZLoader.readBlock.
  rewrite (int_small (addressSize * 2)) by lia.
  rewrite !(int_small (offset + _)) by lia.
  replace (addressSize * 2) with (2 * addressSize) by lia.
  destruct (len data <? offset + 2 * addressSize) eqn:E.
  { apply Z.ltb_lt in E. simpl. left. auto. }
  apply Z.ltb_ge in E.
  rewrite slice_from_drop by lia. cbn [checked exec_bind].
  destruct (readLittleEndianInt_total (drop (Z.to_nat offset) data) addressSize)
    as (address & -> & Haddr).
  cbn [exec_bind].
  rewrite (int_small (offset + addressSize + addressSize)) by lia.
  rewrite slice_from_drop by lia. cbn [checked exec_bind].
  destruct (readLittleEndianInt_total (drop (Z.to_nat (offset + addressSize)) data) addressSize)
    as (size & -> & Hsize).
  cbn [exec_bind].
  replace (offset + addressSize + addressSize) with (offset + 2 * addressSize) by lia.
  destruct (address =? 0).
  { simpl. split; [lia|]. rewrite Z.sub_diag. reflexivity. }
  destruct (size =? 0).
  { simpl. split; [lia|]. rewrite Z.sub_diag. reflexivity. }
  rewrite (int_small size) by lia.
  rewrite (int_small (offset + 2 * addressSize + size)) by lia.
  destruct (len data <? offset + 2 * addressSize + size) eqn:E2.
  { simpl. right. auto. }
  apply Z.ltb_ge in E2.
  rewrite slice_take_drop by lia. cbn [checked exec_bind].
  unfold block_in_bounds. split; [lia|].
  replace (offset + 2 * addressSize + size - (offset + 2 * addressSize)) with size by lia.
  apply copy_full.
  rewrite length_make, length_take, length_drop. unfold len in *. lia.
Qed.

(** [Process] of the WDC loader returns for every file content and every
    sink: it neither panics nor loops. *)
Lemma wdc_process_loop_returns {St} (h : loader.WriteHandler St) data :
  len data < 2 ^ 62 ->
  forall fuel offset s,
    0 <= offset < 2 ^ 62 ->
    (Z.to_nat (len data - offset) <= fuel)%nat ->
    exists r, loader.WDCLoader.process_loop fuel data h offset s = Done r.
Proof.
  intros Hd. induction fuel as [|k IH]; intros offset s Ho Hfuel.
  - cbn [loader.WDCLoader.process_loop].
    replace (offset <? len data) with false by (symmetry; apply Z.ltb_ge; lia).
    eexists. reflexivity.
  - cbn [loader.WDCLoader.process_loop].
    destruct (offset <? len data) eqn:E; cbn [negb]; [|eexists; reflexivity].
    apply Z.ltb_lt in E.
    pose proof (wdc_readBlock_in_bounds data offset Ho Hd) as HB.
    destruct (loader.WDCLoader.readBlock data offset)
      as [[[[address block] newOffset] [e|]]| |]; cbn [exec_bind];
      try contradiction; [eexists; reflexivity|].
    cbn [block_in_bounds] in HB. destruct HB as [HB _].
    destruct (address =? 0); [eexists; reflexivity|].
    destruct (h address block s) as [[e|] s1]; [eexists; reflexivity|].
    apply IH; lia.
Qed.

Lemma wdc_Process_returns {St} (l : loader.WDCLoader.WDCLoader St) s :
  (forall d, loader.WDCLoader.data l = Some d -> len d < 2 ^ 62) ->
  exists r, loader.WDCLoader.Process l s = Done r.
Proof.
  intros Hd. unfold loader.WDCLoader.Process.
  destruct (loader.WDCLoader.data l) as [d|]; [|eexists; reflexivity].
  destruct (loader.WDCLoader.handler l) as [h|]; [|eexists; reflexivity].
  apply wdc_process_loop_returns; [auto|lia|unfold len; lia].
Qed.

Lemma chunk_loop_returns {St} (h : loader.WriteHandler St) a block :
  len block < 2 ^ 62 ->
  forall fuel off s,
    0 <= off <= len block ->
    (Z.to_nat (len block - off) <= fuel)%nat ->
    exists r, loader.PGZLoader.chunk_loop fuel h a block (len block - off) off s = Done r.
Proof.
  intros Hb. induction fuel as [|k IH]; intros off s Hoff Hfuel.
  - assert (off = len block) by lia. subst off.
    rewrite Z.sub_diag, chunk_loop_done. eexists. reflexivity.
  - destruct (Z.eq_dec off (len block)) as [->|Hne].
    { rewrite Z.sub_diag, chunk_loop_done. eexists. reflexivity. }
    set (total := len block - off) in *.
    cbn [loader.PGZLoader.chunk_loop].
    replace (0 <? total) with true by (symmetry; apply Z.ltb_lt; unfold total; lia).
    cbn [negb]. unfold loader.PGZLoader.chunkSize.
    set (cur := if total <? 1024 then total else 1024).
    assert (Hcur : 0 < cur <= 1024 /\ cur <= total).
    { unfold cur. destruct (total <? 1024) eqn:E;
        [apply Z.ltb_lt in E | apply Z.ltb_ge in E]; unfold total in *; lia. }
    rewrite (int_small (off + cur)) by lia.
    rewrite (int_small (total - cur)) by (unfold total in *; lia).
    rewrite slice_take_drop by (unfold total in *; lia).
    cbn [checked exec_bind].
    destruct (h _ _ s) as [[e|] s1]; [eexists; reflexivity|].
    replace (total - cur) with (len block - (off + cur)) by (unfold total; lia).
    apply IH; unfold total in *; lia.
Qed.

Lemma deliver_block_returns {St} (h : loader.WriteHandler St) a block s :
  len block < 2 ^ 62 ->
  exists r, loader.PGZLoader.deliver_block h a block s = Done r.
Proof.
  intros Hb. unfold loader.PGZLoader.deliver_block.
  destruct (loader.PGZLoader.chunkSize <? len block).
  - pose proof (chunk_loop_returns h a block Hb (length block) 0 s
                  ltac:(pose proof (len_nonneg block); lia) ltac:(unfold len; lia)) as H.
    rewrite Z.sub_0_r in H. exact H.
  - destruct (h a block s) as [[e|] s1]; eexists; reflexivity.
Qed.

(** [Process] of the PGZ loader returns for every file content and every
    sink: it neither panics nor loops. *)
Lemma pgz_process_loop_returns {St} (h : loader.WriteHandler St) cfg addressSize data :
  addressSize = 3 \/ addressSize = 4 ->
  len data < 2 ^ 62 ->
  forall fuel offset s,
    0 <= offset < 2 ^ 62 ->
    (Z.to_nat (len data - offset) <= fuel)%nat ->
    exists r, loader.PGZLoader.process_loop fuel cfg addressSize data h offset s = Done r.
Proof.
  intros Hsz Hd. induction fuel as [|k IH]; intros offset s Ho Hfuel.
  - cbn [loader.PGZLoader.process_loop].
    replace (offset <? len data) with false by (symmetry; apply Z.ltb_ge; lia).
    eexists. reflexivity.
  - cbn [loader.PGZLoader.process_loop].
    destruct (offset <? len data) eqn:E; cbn [negb]; [|eexists; reflexivity].
    apply Z.ltb_lt in E.
    pose proof (pgz_readBlock_in_bounds addressSize data offset Hsz Ho Hd) as HB.
    destruct (loader.PGZLoader.readBlock addressSize data offset)
      as [[[[address block] newOffset] [e|]]| |]; cbn [exec_bind];
      try contradiction; [eexists; reflexivity|].
    cbn [block_in_bounds] in HB. destruct HB as [HB Hblock].
    destruct (address =? 0); [eexists; reflexivity|].
    destruct ((len block =? 0) && (0 <? address)).
    { destruct (loader.SetupResetVectors _ _ _ _) as [[e|] s1]; [eexists; reflexivity|].
      apply IH; lia. }
    destruct (0 <? address); [|apply IH; lia].
    assert (Hbl : len block < 2 ^ 62).
    { rewrite Hblock. unfold len in *. rewrite length_take, length_drop. lia. }
    destruct (deliver_block_returns h address block s Hbl) as [[err s1] ->].
    cbn [exec_bind]. destruct err as [e|]; [eexists; reflexivity|].
    apply IH; lia.
Qed.

(** C10. For every file content and every starting offset inside the range
    of buffer positions, block parsing in the WDC and PGZ loaders never
    reads outside the in-memory buffer: [readBlock] never ends in an
    index-out-of-range panic.  When fewer bytes than the address/size header
    are left it returns the error "unexpected end of file", when the declared
    data length runs past the end it returns "data block exceeds file size",
    and otherwise the block it returns is the stretch of the buffer between
    the header and the new offset, which is not past the end.  So [Process]
    of either loader returns, without a panic, for every file content and
    every sink. *)
Theorem block_parsing_in_bounds data offset :
  len data < 2 ^ 62 -> 0 <= offset < 2 ^ 62 ->
  block_in_bounds data 6 offset (loader.WDCLoader.readBlock data offset)
  /\ (forall addressSize, addressSize = 3 \/ addressSize = 4 ->
        block_in_bounds data (2 * addressSize) offset
                        (loader.PGZLoader.readBlock addressSize data offset))
  /\ (forall St (h : loader.WriteHandler St) s,
        exists r,
          loader.WDCLoader.Process (loader.WDCLoader.mkWDCLoader (Some h) (Some data)) s
          = Done r)
  /\ (forall St (l l' : loader.PGZLoader.PGZLoader St) s,
        loader.PGZLoader.Open data l = (None, l') ->
        exists r, loader.PGZLoader.Process l' s = Done r).
Proof.
  intros Hd Ho. split; [|split; [|split]].
  - apply wdc_readBlock_in_bounds; assumption.
  - intros addressSize Hsz. apply pgz_readBlock_in_bounds; assumption.
  - intros St h s. apply wdc_Process_returns. cbn. intros d [= <-]. exact Hd.
  - intros St l l' s HOpen. unfold loader.PGZLoader.Open in HOpen.
    destruct (len data <? 1); [discriminate|].
    destruct data as [|b data']; [discriminate|].
    unfold loader.PGZLoader.Process.
    destruct (b =? 0x7A); [|destruct (b =? 0x5A); [|discriminate]];
      inversion HOpen; subst l';
      cbn [loader.PGZLoader.data loader.PGZLoader.handler
           loader.PGZLoader.addressSize loader.PGZLoader.config];
      (destruct (loader.PGZLoader.handler l) as [h|]; [|eexists; reflexivity]);
      (apply pgz_process_loop_returns;
       [auto | exact Hd | lia | unfold len; lia]).
Qed.

Lemma block_parsing_in_bounds_witness :
  block_in_bounds sample.wdc_file 6 1 (loader.WDCLoader.readBlock sample.wdc_file 1).
Proof.
  refine (proj1 (block_parsing_in_bounds sample.wdc_file 1 _ _)).
  - vm_compute. reflexivity.
  - lia.
Defined.

Example wdc_readBlock_sample :
  loader.WDCLoader.readBlock sample.wdc_file 1 = Done (0x1000, [0xAA; 0xBB], 9, None)
  /\ loader.WDCLoader.readBlock sample.wdc_file 9 = Done (0, [], 15, None)
  /\ loader.WDCLoader.readBlock sample.wdc_file 12
     = Done (0, [], 12, Some (Errorf "unexpected end of file at offset %d" [ArgInt 12] None)).
Proof. repeat split; reflexivity. Qed.

(** ** Intel HEX *)

Lemma hex_char_digit d :
  0 <= d < 16 ->
  strconv.digit (hex_char d) = Some d
  /\ loader.IntelHexLoader.is_hex (hex_char d) = true.
Proof.
  intros H.
  assert (Hc : In d (map Z.of_nat (seq 0 16))).
  { apply in_map_iff. exists (Z.to_nat d). split; [lia|]. apply in_seq. lia. }
  clear H. revert d Hc. apply List.Forall_forall.
  repeat (apply List.Forall_cons; [split; reflexivity|]). apply List.Forall_nil.
Qed.

Lemma digits_hex_byte s0 maxVal b n rest :
  0 <= b < 256 -> 0 <= n -> n * 256 + b <= maxVal -> maxVal < 2 ^ 60 ->
  strconv.digits s0 16 (2 ^ 60) maxVal (hex_byte b ++ rest) n
  = strconv.digits s0 16 (2 ^ 60) maxVal rest (n * 256 + b).
Proof.
  intros Hb Hn Hmax Hlim. unfold hex_byte.
  assert (H1 : 0 <= b / 16 < 16) by (Z.div_mod_to_equations; lia).
  assert (H2 : 0 <= b mod 16 < 16) by (Z.div_mod_to_equations; lia).
  cbn [app strconv.digits].
  rewrite (proj1 (hex_char_digit _ H1)), (proj1 (hex_char_digit _ H2)).
  assert (Hb16 : b = 16 * (b / 16) + b mod 16) by (apply Z.div_mod; lia).
  replace (16 <=? b / 16) with false by (symmetry; apply Z.leb_gt; lia).
  replace (16 <=? b mod 16) with false by (symmetry; apply Z.leb_gt; lia).
  replace (2 ^ 60 <=? n) with false by (symmetry; apply Z.leb_gt; lia).
  unfold strconv.uint64.
  rewrite (Z.mod_small (n * 16)) by lia.
  rewrite (Z.mod_small (n * 16 + b / 16)) by lia.
  replace ((n * 16 + b / 16 <? n * 16) || (maxVal <? n * 16 + b / 16)) with false
    by (symmetry; apply orb_false_iff; rewrite !Z.ltb_ge; lia).
  replace (2 ^ 60 <=? n * 16 + b / 16) with false by (symmetry; apply Z.leb_gt; lia).
  rewrite (Z.mod_small ((n * 16 + b / 16) * 16)) by lia.
  rewrite (Z.mod_small ((n * 16 + b / 16) * 16 + b mod 16)) by lia.
  replace (((n * 16 + b / 16) * 16 + b mod 16 <? (n * 16 + b / 16) * 16)
           || (maxVal <? (n * 16 + b / 16) * 16 + b mod 16)) with false
    by (symmetry; apply orb_false_iff; rewrite !Z.ltb_ge; lia).
  f_equal. lia.
Qed.

Lemma ParseUint_hex cs bitSize maxVal :
  cs <> [] ->
  maxVal = strconv.uint64 (1 ≪ bitSize) - 1 ->
  strconv.ParseUint (String.string_of_list_ascii cs) 16 bitSize
  = strconv.digits (String.string_of_list_ascii cs) 16 (2 ^ 60) maxVal cs 0.
Proof.
  intros Hne ->. unfold strconv.ParseUint.
  destruct cs as [|c cs]; [contradiction|].
  rewrite String.list_ascii_of_string_of_list_ascii.
  reflexivity.
Qed.

Lemma ParseUint_byte b :
  0 <= b < 256 ->
  strconv.ParseUint (String.string_of_list_ascii (hex_byte b)) 16 8 = (b, None).
Proof.
  intros Hb. rewrite (ParseUint_hex _ 8 255) by (discriminate || reflexivity).
  rewrite <- (app_nil_r (hex_byte b)) at 2.
  rewrite digits_hex_byte by lia. reflexivity.
Qed.

Lemma ParseUint_word bitSize maxVal hi lo :
  0 <= hi < 256 -> 0 <= lo < 256 ->
  maxVal = strconv.uint64 (1 ≪ bitSize) - 1 -> 65535 <= maxVal < 2 ^ 60 ->
  strconv.ParseUint (String.string_of_list_ascii (hex_byte hi ++ hex_byte lo)) 16 bitSize
  = (hi * 256 + lo, None).
Proof.
  intros Hhi Hlo Hmax Hrange.
  rewrite (ParseUint_hex _ bitSize maxVal) by (discriminate || assumption).
  rewrite digits_hex_byte by lia.
  rewrite <- (app_nil_r (hex_byte lo)).
  rewrite digits_hex_byte by lia. reflexivity.
Qed.

Lemma Sscanf_hex_byte b :
  0 <= b < 256 ->
  loader.Sscanf_02x (hex_char (b / 16)) (hex_char (b mod 16)) = (b, None).
Proof.
  intros Hb. unfold loader.Sscanf_02x.
  assert (H1 : 0 <= b / 16 < 16) by (Z.div_mod_to_equations; lia).
  assert (H2 : 0 <= b mod 16 < 16) by (Z.div_mod_to_equations; lia).
  rewrite (proj1 (hex_char_digit _ H1)), (proj1 (hex_char_digit _ H2)).
  replace ((b / 16 <? 16) && (b mod 16 <? 16)) with true
    by (symmetry; apply andb_true_iff; rewrite !Z.ltb_lt; lia).
  f_equal. rewrite uint8_small; Z.div_mod_to_equations; lia.
Qed.

Lemma hex_pairs_hex_bytes data : forall i,
  bytes data -> loader.hex_pairs i (hex_bytes data) = (data, None).
Proof.
  induction data as [|b data IH]; intros i Hb; [reflexivity|].
  apply Forall_cons_1 in Hb. destruct Hb as [Hb Hd].
  cbn [hex_bytes flat_map hex_byte app loader.hex_pairs].
  rewrite Sscanf_hex_byte by assumption.
  fold (hex_bytes data). rewrite IH by assumption. reflexivity.
Qed.

Lemma length_hex_bytes data : length (hex_bytes data) = (2 * length data)%nat.
Proof.
  induction data as [|b data IH]; [reflexivity|].
  cbn [hex_bytes flat_map hex_byte app length]. fold (hex_bytes data). lia.
Qed.

(** Decoding the digits of a byte string gives the byte string back. *)
Lemma hexStringToBytes_hex_bytes data :
  bytes data ->
  loader.hexStringToBytes (String.string_of_list_ascii (hex_bytes data)) = (data, None).
Proof.
  intros Hb. unfold loader.hexStringToBytes.
  rewrite String.list_ascii_of_string_of_list_ascii.
  replace (len (hex_bytes data) `rem` 2 =? 0) with true.
  - apply hex_pairs_hex_bytes. assumption.
  - symmetry. apply Z.eqb_eq. unfold len. rewrite length_hex_bytes.
    rewrite Z.rem_mod_nonneg by lia.
    rewrite Nat2Z.inj_mul, Z.mul_comm. apply Z.mod_mul. lia.
Qed.

Lemma hex_run_all cs :
  Forall (fun c => loader.IntelHexLoader.is_hex c = true) cs ->
  loader.IntelHexLoader.hex_run cs = cs.
Proof.
  induction 1 as [|c cs Hc _ IH]; [reflexivity|].
  cbn [loader.IntelHexLoader.hex_run]. rewrite Hc, IH. reflexivity.
Qed.

Lemma hex_byte_is_hex b :
  0 <= b < 256 ->
  Forall (fun c => loader.IntelHexLoader.is_hex c = true) (hex_byte b).
Proof.
  intros Hb. unfold hex_byte.
  repeat constructor; apply hex_char_digit; Z.div_mod_to_equations; lia.
Qed.

Lemma hex_bytes_is_hex data :
  bytes data ->
  Forall (fun c => loader.IntelHexLoader.is_hex c = true) (hex_bytes data).
Proof.
  induction 1 as [|b data Hb _ IH]; [constructor|].
  cbn [hex_bytes flat_map]. apply Forall_app. split; [|exact IH].
  apply hex_byte_is_hex. exact Hb.
Qed.

(** The pattern of [Process] splits the line of a record into its fields. *)
Lemma FindStringSubmatch_record address type data checksum :
  0 <= address < 65536 -> 0 <= type < 256 ->
  bytes data -> len data < 256 -> 0 <= checksum < 256 ->
  loader.IntelHexLoader.FindStringSubmatch (record_line address type data checksum)
  = Some (loader.IntelHexLoader.mkSubmatch
            (String.string_of_list_ascii (hex_byte (len data)))
            (String.string_of_list_ascii
               (hex_byte (address / 256) ++ hex_byte (address mod 256)))
            (String.string_of_list_ascii (hex_byte type))
            (String.string_of_list_ascii (hex_bytes data))
            (String.string_of_list_ascii (hex_byte checksum))).
Proof.
  intros Ha Ht Hd Hl Hc.
  unfold loader.IntelHexLoader.FindStringSubmatch, record_line.
  rewrite String.list_ascii_of_string_of_list_ascii.
  change (strconv.code (Ascii.ascii_of_N 58) =? 58) with true. cbv iota.
  pose proof (len_nonneg data) as Hn.
  rewrite hex_run_all.
  2:{ repeat (apply Forall_app; split);
        try (apply hex_byte_is_hex; Z.div_mod_to_equations; lia).
      apply hex_bytes_is_hex. exact Hd. }
  set (run := hex_byte (len data) ++ _).
  assert (Hrun : run
                 = hex_char (len data / 16) :: hex_char (len data mod 16)
                   :: hex_char (address / 256 / 16) :: hex_char (address / 256 mod 16)
                   :: hex_char (address mod 256 / 16) :: hex_char (address mod 256 mod 16)
                   :: hex_char (type / 16) :: hex_char (type mod 16)
                   :: (hex_bytes data ++ hex_byte checksum)) by reflexivity.
  clearbody run. subst run. cbv zeta.
  cbn [length]. rewrite length_app, length_hex_bytes. cbn [hex_byte length].
  replace (S (S (S (S (S (S (S (S (2 * length data + 2)))))))) <? 10)%nat with false
    by (symmetry; apply Nat.ltb_ge; lia).
  cbn [take drop].
  replace (S (S (S (S (S (S (S (S (2 * length data + 2)))))))) - 10)%nat
    with (length (hex_bytes data)) by (rewrite length_hex_bytes; lia).
  replace (S (S (S (S (S (S (S (S (2 * length data + 2)))))))) - 2)%nat
    with (S (S (S (S (S (S (S (S (length (hex_bytes data))))))))))
    by (rewrite length_hex_bytes; lia).
  cbn [drop]. rewrite take_0, drop_0, take_app_length, drop_app_length.
  reflexivity.
Qed.

Lemma record_line_nonempty address type data checksum :
  (Z.of_nat (String.length (record_line address type data checksum)) =? 0) = false.
Proof.
  unfold record_line. cbn [String.string_of_list_ascii String.length].
  apply Z.eqb_neq. lia.
Qed.

(** One pass of the loop of [Process] over the line of a record. *)
Lemma scan_record {St} (h : loader.WriteHandler St) scanErr address type data checksum
    rest lineNum base s :
  0 <= address < 65536 -> 0 <= type < 256 ->
  bytes data -> len data < 256 -> 0 <= checksum < 256 ->
  loader.IntelHexLoader.scan h scanErr
    (record_line address type data checksum :: rest) lineNum base s
  = if type =? 0x00 then
      match h (uint32 (base + address)) data s with
      | (Some e, s') =>
        (Some (Errorf "handler failed at line %d: %w"
                 [ArgInt (int (lineNum + 1))] (Some e)), base, s')
      | (None, s') =>
        loader.IntelHexLoader.scan h scanErr rest (int (lineNum + 1)) base s'
      end
    else if type =? 0x01 then (None, base, s)
    else if type =? 0x02 then
      loader.IntelHexLoader.scan h scanErr rest (int (lineNum + 1))
        (uint32 (uint32 (fst (strconv.ParseUint
                                (String.string_of_list_ascii (hex_bytes data)) 16 32)) ≪ 4)) s
    else if type =? 0x04 then
      loader.IntelHexLoader.scan h scanErr rest (int (lineNum + 1))
        (uint32 (uint32 (fst (strconv.ParseUint
                                (String.string_of_list_ascii (hex_bytes data)) 16 32)) ≪ 16)) s
    else if (type =? 0x03) || (type =? 0x05) then
      loader.IntelHexLoader.scan h scanErr rest (int (lineNum + 1)) base s
    else
      (Some (Errorf "unsupported record type 0x%02X at line %d"
               [ArgInt type; ArgInt (int (lineNum + 1))] None), base, s).
Proof.
  intros Ha Ht Hd Hl Hc. pose proof (len_nonneg data) as Hn.
  cbn [loader.IntelHexLoader.scan].
  rewrite record_line_nonempty.
  rewrite FindStringSubmatch_record by assumption.
  cbn [loader.IntelHexLoader.m_count loader.IntelHexLoader.m_address
       loader.IntelHexLoader.m_type loader.IntelHexLoader.m_data].
  rewrite (ParseUint_byte type) by assumption.
  rewrite (ParseUint_byte (len data)) by lia.
  rewrite (ParseUint_word 16 65535) by (try reflexivity; Z.div_mod_to_equations; lia).
  cbn [fst].
  rewrite hexStringToBytes_hex_bytes by assumption.
  rewrite Z.eqb_refl. cbn [negb].
  replace (address / 256 * 256 + address mod 256) with address
    by (Z.div_mod_to_equations; lia).
  rewrite (uint32_small address) by lia.
  destruct (type =? 0); [|reflexivity].
  destruct (h (uint32 (base + address)) data s) as [[e|] s']; reflexivity.
Qed.

Lemma word_bytes_ok v : 0 <= v < 65536 -> bytes (word_bytes v) /\ len (word_bytes v) < 256.
Proof.
  intros Hv. split; [|unfold len; simpl; lia].
  unfold word_bytes, bytes. repeat constructor; Z.div_mod_to_equations; lia.
Qed.

Lemma ParseUint_word_bytes v :
  0 <= v < 65536 ->
  strconv.ParseUint (String.string_of_list_ascii (hex_bytes (word_bytes v))) 16 32
  = (v, None).
Proof.
  intros Hv. unfold word_bytes. cbn [hex_bytes flat_map]. rewrite app_nil_r.
  rewrite (ParseUint_word 32 (2 ^ 32 - 1))
    by (try reflexivity; Z.div_mod_to_equations; lia).
  f_equal. Z.div_mod_to_equations. lia.
Qed.

(** C7. While an Intel HEX file is processed, a record of type 0x02
    carrying the 16-bit value [v] sets the running base address to [v << 4]
    and a record of type 0x04 sets it to [v << 16]; a data record (type
    0x00) is delivered to the write-sink at the base address plus its 16-bit
    record address (a 32-bit sum), after which processing goes on with the
    next line unless the sink refuses; a record of type 0x01 ends processing
    whatever follows it.  So a data record that follows an extended linear
    address record for [v] reaches the sink at [(v << 16) + address]. *)
Theorem intel_hex_records {St} (h : loader.WriteHandler St) scanErr rest lineNum base s :
  (forall address v checksum,
     0 <= address < 65536 -> 0 <= v < 65536 -> 0 <= checksum < 256 ->
     loader.IntelHexLoader.scan h scanErr
       (record_line address 0x02 (word_bytes v) checksum :: rest) lineNum base s
     = loader.IntelHexLoader.scan h scanErr rest (int (lineNum + 1)) (v ≪ 4) s)
  /\ (forall address v checksum,
        0 <= address < 65536 -> 0 <= v < 65536 -> 0 <= checksum < 256 ->
        loader.IntelHexLoader.scan h scanErr
          (record_line address 0x04 (word_bytes v) checksum :: rest) lineNum base s
        = loader.IntelHexLoader.scan h scanErr rest (int (lineNum + 1)) (v ≪ 16) s)
  /\ (forall address data checksum,
        0 <= address < 65536 -> bytes data -> len data < 256 -> 0 <= checksum < 256 ->
        loader.IntelHexLoader.scan h scanErr
          (record_line address 0x00 data checksum :: rest) lineNum base s
        = match h (uint32 (base + address)) data s with
          | (Some e, s') =>
            (Some (Errorf "handler failed at line %d: %w"
                     [ArgInt (int (lineNum + 1))] (Some e)), base, s')
          | (None, s') =>
            loader.IntelHexLoader.scan h scanErr rest (int (lineNum + 1)) base s'
          end)
  /\ (forall address data checksum,
        0 <= address < 65536 -> bytes data -> len data < 256 -> 0 <= checksum < 256 ->
        loader.IntelHexLoader.scan h scanErr
          (record_line address 0x01 data checksum :: rest) lineNum base s
        = (None, base, s))
  /\ (forall v address data c1 c2 c3 log,
        0 <= v < 65536 -> 0 <= address < 65536 -> bytes data -> len data < 256 ->
        0 <= c1 < 256 -> 0 <= c2 < 256 -> 0 <= c3 < 256 ->
        loader.IntelHexLoader.scan record scanErr
          (record_line 0 0x04 (word_bytes v) c1
           :: record_line address 0x00 data c2
           :: record_line 0 0x01 [] c3 :: rest) lineNum base log
        = (None, v ≪ 16, log ++ [(v ≪ 16 + address, data)])).
Proof.
  assert (Hshift4 : forall v, 0 <= v < 65536 -> uint32 (uint32 v ≪ 4) = v ≪ 4).
  { intros v Hv. rewrite (uint32_small v) by lia.
    rewrite Z.shiftl_mul_pow2 by lia. apply uint32_small. lia. }
  assert (Hshift16 : forall v, 0 <= v < 65536 -> uint32 (uint32 v ≪ 16) = v ≪ 16).
  { intros v Hv. rewrite (uint32_small v) by lia.
    rewrite Z.shiftl_mul_pow2 by lia. apply uint32_small. lia. }
  split; [|split; [|split; [|split]]].
  - intros address v checksum Ha Hv Hc. destruct (word_bytes_ok v Hv) as [Hb Hl].
    rewrite scan_record by (assumption || lia).
    cbn [Z.eqb orb Pos.eqb]. rewrite ParseUint_word_bytes by assumption.
    cbn [fst]. rewrite Hshift4 by assumption. reflexivity.
  - intros address v checksum Ha Hv Hc. destruct (word_bytes_ok v Hv) as [Hb Hl].
    rewrite scan_record by (assumption || lia).
    cbn [Z.eqb orb Pos.eqb]. rewrite ParseUint_word_bytes by assumption.
    cbn [fst]. rewrite Hshift16 by assumption. reflexivity.
  - intros address data checksum Ha Hb Hl Hc.
    rewrite scan_record by (assumption || lia). reflexivity.
  - intros address data checksum Ha Hb Hl Hc.
    rewrite scan_record by (assumption || lia). reflexivity.
  - intros v address data c1 c2 c3 log Hv Ha Hb Hl H1 H2 H3.
    destruct (word_bytes_ok v Hv) as [Hwb Hwl].
    rewrite scan_record by (assumption || lia).
    cbn [Z.eqb orb Pos.eqb]. rewrite ParseUint_word_bytes by assumption.
    cbn [fst]. rewrite Hshift16 by assumption.
    rewrite scan_record by (assumption || lia).
    cbn [Z.eqb orb Pos.eqb]. unfold record at 1.
    rewrite scan_record by (try assumption; try constructor; unfold len; simpl; lia).
    cbn [Z.eqb orb Pos.eqb].
    rewrite uint32_small; [reflexivity|].
    rewrite Z.shiftl_mul_pow2 by lia. lia.
Qed.

(** The records of the specification's example: an extended linear address
    record for 0xABCD and a data record at address 0. *)
Lemma intel_hex_records_witness :
  record_line 0 0x04 (word_bytes 0xABCD) 0x11 = ":02000004ABCD11"%string
  /\ loader.IntelHexLoader.scan record None
       [ ":02000004ABCD11"%string; ":02000000DEAD73"%string; ":00000001FF"%string ] 0 0 []
     = (None, 0xABCD0000, [(0xABCD0000, [0xDE; 0xAD])]).
Proof.
  split; [reflexivity|].
  exact (proj2 (proj2 (proj2 (proj2
    (intel_hex_records record None [] 0 0 []))))
    0xABCD 0 [0xDE; 0xAD] 0x11 0x73 0xFF []
    ltac:(lia) ltac:(lia) ltac:(repeat constructor; lia) ltac:(vm_compute; reflexivity)
    ltac:(lia) ltac:(lia) ltac:(lia)).
Defined.

(** ** Flash commands *)
























(** The same file offered as a full image: the command warns, asks, uploads,
    erases and programs. *)
Example flashProgramFull_wrong_size :
  match cmd.flashProgramFull 100 sample.env "image.bin" sample.world with
  | Done (None, w) =>
    commands (history (cmd.link w))
    = [ (CMDEnterDebug, 0, 0); (CMDWriteMem, 0x380000, 16);
        (CMDEraseFlash, 0, 0); (CMDProgramFlash, 0x380000, 0);
        (CMDExitDebug, 0, 0) ]
    /\ head (cmd.log w) = Some (size_warning sample.env (replicate 16 0xEA))
  | _ => False
  end.
Proof. vm_compute. split; reflexivity. Qed.

(** * Further properties of the code *)

(** ** The debug port *)

(** X1. Whatever the peer does, a call of [transfer] hands exactly one
    packet to the connection, the request it built, and takes no pause. *)
Theorem transfer_sends_one_packet command address data readLength dp :
  history (conn (snd (transfer command address data readLength dp)))
  = history (conn dp) ++ [Wrote (packet command address data readLength)].
Proof. apply transfer_history. Qed.

(** X2. A call of [transfer] that succeeds returns exactly [readLength]
    bytes when [readLength] is positive and no bytes otherwise. *)
Theorem transfer_returns_requested_length command address data readLength dp bs dp' :
  transfer command address data readLength dp = ((bs, None), dp') ->
  if 0 <? readLength then len bs = readLength else bs = [].
Proof. apply transfer_ok_len. Qed.

Lemma transfer_returns_requested_length_witness :
  len [7; 7; 7; 7] = 4.
Proof.
  exact (transfer_returns_requested_length CMDReadMem 0x1000 [] 4 sample.patch_port
           [7; 7; 7; 7] _ eq_refl).
Defined.

(** X3. Whenever [transfer] fails, its error is one of the six it builds
    itself: the write failed or was incomplete, or the sync byte, the status
    bytes, the data or the LRC could not be read. *)
Theorem transfer_failures command address data readLength dp e :
  snd (fst (transfer command address data readLength dp)) = Some e ->
  transfer_failure (format_of e).
Proof.
  unfold transfer, transfer_failure.
  destruct (Write _ _) as [[written [e1|]] c]; cbn [fst snd].
  { intros [= <-]. cbn. auto. }
  destruct (negb _); cbn [fst snd].
  { intros [= <-]. cbn. auto. }
  pose proof (await_sync_total (S (length (reads c))) 0 c ltac:(cbn; lia)) as Htot.
  cbn [conn with_conn with_status] in *.
  destruct (await_sync _ _ _) as [[[e1|]|] c1] eqn:ES; cbn [fst snd] in *.
  - intros [= <-].
    assert (format_of e1 = "failed to read sync byte: %w"%string); [|cbn; auto 10].
    clear -ES. revert ES. generalize (S (length (reads c))) as fuel. generalize 0 as b.
    revert c. intros c b fuel. revert b c.
    induction fuel as [|k IH]; intros b c; unfold await_sync; fold await_sync.
    + destruct (b =? ResponseSyncByte); discriminate.
    + destruct (b =? ResponseSyncByte); [discriminate|].
      destruct (Read 1 c) as [[buf [e|]] c2].
      * intros [= <- _]. reflexivity.
      * apply IH.
  - destruct (Read 2 _) as [[statusBytes [e1|]] c2]; cbn [fst snd].
    { intros [= <-]. cbn. auto 10. }
    destruct (0 <? readLength).
    + destruct (Read readLength _) as [[bs [e1|]] c3]; cbn [fst snd].
      { intros [= <-]. cbn. auto 10. }
      destruct (Read 1 _) as [[x [e1|]] c4]; cbn [fst snd]; [|discriminate].
      intros [= <-]. cbn. auto 10.
    + cbn [fst snd]. destruct (Read 1 _) as [[x [e1|]] c4]; cbn [fst snd]; [|discriminate].
      intros [= <-]. cbn. auto 10.
  - exfalso. apply Htot. reflexivity.
Qed.

Lemma transfer_failures_witness :
  transfer_failure "failed to write packet: %w".
Proof.
  exact (transfer_failures CMDRevision 0 [] 0 sample.dead_port
           (Errorf "failed to write packet: %w" [] (Some ErrClosed)) eq_refl).
Defined.

(** X4. Encoding a request and reading its header back recovers the
    command, the address and the length, as long as the address fits 24 bits
    and the length 16 bits. *)
Theorem request_round_trip command address data readLength :
  0 <= address < 2 ^ 24 ->
  0 <= (if 0 <? len data then uint16 (len data) else readLength) < 2 ^ 16 ->
  decode_request (packet command address data readLength)
  = (command, address, if 0 <? len data then uint16 (len data) else readLength).
Proof. apply decode_packet. Qed.

Lemma request_round_trip_witness :
  decode_request (packet CMDWriteMem 0x380000 [1; 2; 3] 0) = (CMDWriteMem, 0x380000, 3).
Proof.
  exact (request_round_trip CMDWriteMem 0x380000 [1; 2; 3] 0
           ltac:(vm_compute; split; [discriminate|reflexivity])
           ltac:(vm_compute; split; [discriminate|reflexivity])).
Defined.

(** A call of [transfer] that succeeds has read the status bytes of the
    response and stored them. *)
Lemma transfer_success_status command address data readLength dp bs dp' :
  transfer command address data readLength dp = ((bs, None), dp') ->
  received_status (reads (conn dp)) = Some (status0 dp', status1 dp').
Proof.
  intros HT.
  pose proof (transfer_status command address data readLength dp) as HS.
  cbv zeta in HS. rewrite HT in HS. cbn [snd] in HS. unfold GetStatus0, GetStatus1 in HS.
  revert HT. unfold transfer.
  pose proof (Write_accepted (packet command address data readLength) (conn dp)) as HW.
  cbn [conn with_status] in *.
  destruct (Write _ _) as [[written [e|]] c]; [discriminate|].
  destruct HW as [HW Hreads]. rewrite HW in HS.
  destruct (written =? _); cbn [negb]; [|discriminate].
  cbn [conn with_conn].
  pose proof (await_sync_status (S (length (reads c))) 0 c ltac:(lia) ltac:(discriminate))
    as HA.
  destruct (await_sync _ _ _) as [[[e|]|] c1]; try discriminate.
  pose proof (Read_two_inv c1) as H2.
  destruct (Read 2 c1) as [[statusBytes [e|]] c2]; [discriminate|].
  destruct H2 as (s0 & s1 & _ & H2). intros _.
  rewrite <- Hreads, HA, H2 in *. rewrite HS. reflexivity.
Qed.

(** X5. [GetRevision] issues one revision command and, when the transfer
    succeeds, returns the second status byte of the response. *)
Theorem GetRevision_second_status dp revision dp' :
  GetRevision dp = ((revision, None), dp') ->
  (exists s0, received_status (reads (conn dp)) = Some (s0, revision))
  /\ commands (history (conn dp')) = commands (history (conn dp)) ++ [(CMDRevision, 0, 0)].
Proof.
  unfold GetRevision.
  pose proof (transfer_success_status CMDRevision 0 [] 0 dp) as HS.
  pose proof (transfer_commands CMDRevision 0 [] 0 dp) as HC.
  rewrite decode_packet in HC by (simpl; lia). simpl in HC.
  destruct (transfer CMDRevision 0 [] 0 dp) as [[bs [e|]] dp1];
    cbn [fst snd] in *; [discriminate|].
  intros [= <- <-]. split; [|exact HC].
  exists (status0 dp1). apply (HS bs dp1 eq_refl).
Qed.

Lemma GetRevision_second_status_witness :
  exists s0,
    received_status
      (reads (conn (mkDebugPort (mkConn (sample.ack 0 1) [WrAll] []) sample.cfg 0 0)))
    = Some (s0, 1).
Proof.
  exact (proj1 (GetRevision_second_status
                  (mkDebugPort (mkConn (sample.ack 0 1) [WrAll] []) sample.cfg 0 0)
                  1 _ eq_refl)).
Defined.

(** X6. [SetBootSource] issues exactly one command, boot-from-RAM for
    source 0 and boot-from-flash for source 1; for every other source it
    returns an error and issues nothing. *)
Theorem SetBootSource_commands source dp :
  commands (history (conn (snd (SetBootSource source dp))))
  = commands (history (conn dp))
    ++ (if source =? 0 then [(CMDBootRAM, 0, 0)]
        else if source =? 1 then [(CMDBootFlash, 0, 0)]
        else [])
  /\ (source <> 0 -> source <> 1 ->
      SetBootSource source dp
      = (Some (Errorf "invalid boot source: %d (must be 0 for RAM or 1 for Flash)"
                 [ArgInt source] None), dp)).
Proof.
  unfold SetBootSource, BootSrcRAM, BootSrcFlash. split.
  - destruct (source =? 0).
    { pose proof (transfer_commands CMDBootRAM 0 [] 0 dp) as HC.
      rewrite decode_packet in HC by (simpl; lia). simpl in HC.
      destruct (transfer _ _ _ _ dp) as [[bs e] dp1]. exact HC. }
    destruct (source =? 1).
    { pose proof (transfer_commands CMDBootFlash 0 [] 0 dp) as HC.
      rewrite decode_packet in HC by (simpl; lia). simpl in HC.
      destruct (transfer _ _ _ _ dp) as [[bs e] dp1]. exact HC. }
    cbn [snd]. rewrite app_nil_r. reflexivity.
  - intros H0 H1.
    replace (source =? 0) with false by (symmetry; apply Z.eqb_neq; exact H0).
    replace (source =? 1) with false by (symmetry; apply Z.eqb_neq; exact H1).
    reflexivity.
Qed.

Lemma SetBootSource_commands_witness :
  SetBootSource 2 sample.dead_port
  = (Some (Errorf "invalid boot source: %d (must be 0 for RAM or 1 for Flash)"
             [ArgInt 2] None), sample.dead_port).
Proof.
  exact (proj2 (SetBootSource_commands 2 sample.dead_port)
           ltac:(discriminate) ltac:(discriminate)).
Defined.



(** X8. For every CPU other than the 68040 and the 68060, [WriteBlock]
    issues exactly one write of the data at the address, aligned or not, and
    returns what that transfer returns. *)
Theorem WriteBlock_direct address data dp :
  config.CPU (config dp) <> "68040"%string ->
  config.CPU (config dp) <> "68060"%string ->
  WriteBlock address data dp
  = Done (snd (fst (transfer CMDWriteMem address data 0 dp)),
          snd (transfer CMDWriteMem address data 0 dp))
  /\ issued (history (conn (snd (transfer CMDWriteMem address data 0 dp))))
     = issued (history (conn dp)) ++ [packet CMDWriteMem address data 0].
Proof.
  intros H40 H60. split; [|apply transfer_issued].
  unfold WriteBlock, config.CPUIsM68k32.
  replace (String.eqb (config.CPU (config dp)) "68040") with false
    by (symmetry; apply String.eqb_neq; exact H40).
  replace (String.eqb (config.CPU (config dp)) "68060") with false
    by (symmetry; apply String.eqb_neq; exact H60).
  cbn [orb]. destruct (transfer _ _ _ _ dp) as [[bs e] dp1]. reflexivity.
Qed.

Lemma WriteBlock_direct_witness :
  issued (history (conn (snd (transfer CMDWriteMem 0x1001 [1; 2] 0
                                (sample.live_port sample.cfg 1)))))
  = issued (history (conn (sample.live_port sample.cfg 1)))
    ++ [packet CMDWriteMem 0x1001 [1; 2] 0].
Proof.
  exact (proj2 (WriteBlock_direct 0x1001 [1; 2] (sample.live_port sample.cfg 1)
                  ltac:(discriminate) ltac:(discriminate))).
Defined.

(** ** The LRC helpers *)

(** X9. A checksum appended by [calculateLRC] is accepted by [verifyLRC]:
    for every non-empty byte string, [verifyLRC] holds of the string
    followed by its LRC. *)
Theorem verifyLRC_accepts_calculateLRC data :
  data <> [] -> len data < 2 ^ 62 ->
  lrc.verifyLRC (data ++ [lrc.calculateLRC data]) = Done true.
Proof.
  intros Hne Hlen. unfold lrc.verifyLRC.
  assert (Hn : 1 <= len data).
  { destruct data; [contradiction|]. unfold len. simpl. lia. }
  rewrite len_app. change (len [lrc.calculateLRC data]) with 1.
  replace (len data + 1 <? 2) with false by (symmetry; apply Z.ltb_ge; lia).
  replace (len data + 1 - 1) with (len data) by lia.
  rewrite int_small by lia.
  rewrite index_nth by (rewrite len_app; change (len [lrc.calculateLRC data]) with 1; lia).
  cbn [checked exec_bind].
  rewrite slice_take_drop
    by (try rewrite len_app; try change (len [lrc.calculateLRC data]) with 1; lia).
  cbn [checked exec_bind].
  change (Z.to_nat 0) with 0%nat. rewrite drop_0, Z.sub_0_r.
  replace (Z.to_nat (len data)) with (length data) by (unfold len; lia).
  rewrite take_app_length.
  rewrite app_nth2 by lia. rewrite Nat.sub_diag. cbn [nth].
  rewrite Z.eqb_refl. reflexivity.
Qed.

Lemma verifyLRC_accepts_calculateLRC_witness :
  lrc.verifyLRC ([0x55; 0x00; 0x00; 0x10; 0x00; 0x00; 0x10]
                 ++ [lrc.calculateLRC [0x55; 0x00; 0x00; 0x10; 0x00; 0x00; 0x10]])
  = Done true.
Proof.
  exact (verifyLRC_accepts_calculateLRC [0x55; 0x00; 0x00; 0x10; 0x00; 0x00; 0x10]
           ltac:(discriminate) ltac:(vm_compute; reflexivity)).
Defined.

(** X10. [verifyLRC] rejects every input of fewer than two bytes, and on
    longer inputs it holds exactly when the last byte is the XOR of the
    bytes before it; it never indexes outside its argument. *)
Theorem verifyLRC_spec data :
  len data < 2 ^ 62 ->
  lrc.verifyLRC data
  = Done (if len data <? 2 then false
          else nth (length data - 1) data 0 =? xor_all (take (length data - 1) data)).
Proof.
  intros Hlen. unfold lrc.verifyLRC.
  destruct (len data <? 2) eqn:E; [reflexivity|].
  apply Z.ltb_ge in E.
  rewrite int_small by lia.
  rewrite index_nth by lia. cbn [checked exec_bind].
  rewrite slice_take_drop by lia. cbn [checked exec_bind].
  change (Z.to_nat 0) with 0%nat. rewrite drop_0, Z.sub_0_r.
  replace (Z.to_nat (len data - 1)) with (length data - 1)%nat by (unfold len; lia).
  unfold lrc.calculateLRC. rewrite foldl_lxor, Z.lxor_0_l. reflexivity.
Qed.

Lemma verifyLRC_spec_witness :
  lrc.verifyLRC [0x00] = Done false.
Proof.
  exact (verifyLRC_spec [0x00] ltac:(vm_compute; reflexivity)).
Defined.

(** ** Reset vectors *)

(** X11. For a CPU of the 680x0 family the configurator offers the sink
    exactly one write, four bytes at address 4, and these bytes are the
    32-bit entry address in big-endian order. *)
Theorem reset_vector_680X0 entry :
  0 <= entry < 2 ^ 32 ->
  exists bs,
    loader.setup680X0Vectors entry record [] = (None, [(0x00000004, bs)])
    /\ length bs = 4%nat /\ big_endian_32 bs = entry.
Proof.
  intros He. eexists. split; [reflexivity|]. split; [reflexivity|].
  unfold big_endian_32, uint8. cbn [nth].
  rewrite !Z.shiftr_div_pow2 by lia.
  change (2 ^ 8) with 256. change (2 ^ 16) with 65536.
  change (2 ^ 24) with 16777216. change (2 ^ 32) with 4294967296 in He.
  Z.div_mod_to_equations. lia.
Qed.

Lemma reset_vector_680X0_witness :
  exists bs,
    loader.setup680X0Vectors 0x380000 record [] = (None, [(0x00000004, bs)])
    /\ length bs = 4%nat /\ big_endian_32 bs = 0x380000.
Proof.
  exact (reset_vector_680X0 0x380000 ltac:(vm_compute; split; [discriminate|reflexivity])).
Defined.

Lemma SetupResetVectors_family {St} cpu entry (h : loader.WriteHandler St) s :
  match cpu_family cpu with
  | Some f =>
    snd (loader.SetupResetVectors cpu entry h s) = snd (deliver h (family_vectors f entry) s)
    /\ (fst (loader.SetupResetVectors cpu entry h s) = None
        <-> fst (deliver h (family_vectors f entry) s) = None)
  | None =>
    loader.SetupResetVectors cpu entry h s
    = (Some (Errorf "unsupported CPU type: %s" [ArgStr cpu] None), s)
  end.
Proof.
  unfold cpu_family, loader.SetupResetVectors, config.CPUIsMotorolatype680X0.
  cbn [config.CPU].
  destruct (String.eqb cpu "65816").
  { pose proof (reset_vectors_65816_sink entry h s) as H. exact H. }
  rewrite (orb_comm (String.eqb cpu "65C02")).
  destruct (String.eqb cpu "65c02" || String.eqb cpu "65C02").
  { unfold loader.setup65C02Vectors, family_vectors, uint8. change (2 ^ 8) with 256.
    cbn [deliver].
    destruct (h 0xFFFC _ s) as [[e|] s1]; cbn [fst snd];
      [split; [reflexivity|split; discriminate]|].
    destruct (h 0x0080 _ s1) as [[e|] s2]; cbn [fst snd];
      [split; [reflexivity|split; discriminate]|].
    destruct (h 0x0088 _ s2) as [[e|] s3]; cbn [fst snd];
      [split; [reflexivity|split; discriminate]|].
    destruct (h 0x00FA _ s3) as [[e|] s4]; cbn [fst snd];
      split; try reflexivity; split; (reflexivity || discriminate). }
  destruct (String.eqb cpu "m68k" || String.eqb cpu "68000"
            || String.eqb cpu "68040" || String.eqb cpu "68060"); [|reflexivity].
  unfold loader.setup680X0Vectors, family_vectors, uint8. change (2 ^ 8) with 256.
  cbn [deliver].
  destruct (h 4 _ s) as [[e|] s1]; cbn [fst snd];
    split; try reflexivity; split; (reflexivity || discriminate).
Qed.

(** X12. [SetupResetVectors] offers the sink, in order and up to its first
    refusal, the writes of the family of the configured CPU (65816; 65C02
    under either spelling; m68k, 68000, 68040, 68060), and for any other CPU
    name it fails at once without calling the sink. *)
Theorem SetupResetVectors_by_family {St} cpu entry (h : loader.WriteHandler St) s :
  match cpu_family cpu with
  | Some f =>
    snd (loader.SetupResetVectors cpu entry h s) = snd (deliver h (family_vectors f entry) s)
    /\ (fst (loader.SetupResetVectors cpu entry h s) = None
        <-> fst (deliver h (family_vectors f entry) s) = None)
  | None =>
    loader.SetupResetVectors cpu entry h s
    = (Some (Errorf "unsupported CPU type: %s" [ArgStr cpu] None), s)
  end.
Proof.
  exact (SetupResetVectors_family cpu entry h s).
Qed.

(** ** Loaders *)

Lemma SetupResetVectors_record_family cpu f entry log :
  cpu_family cpu = Some f ->
  loader.SetupResetVectors cpu entry record log = (None, log ++ family_vectors f entry).
Proof.
  intros Hf.
  pose proof (SetupResetVectors_family cpu entry record log) as H.
  rewrite Hf in H. rewrite deliver_record in H. cbn [fst snd] in H.
  destruct H as [H1 H2].
  destruct (loader.SetupResetVectors cpu entry record log) as [err log'].
  cbn [fst snd] in *. subst log'. f_equal. apply H2. reflexivity.
Qed.

(** X13. A PGX file that carries the signature, version 0 and the CPU id
    of the configured CPU's family is processed without error, and the sink
    receives exactly the payload at the little-endian load address of the
    header followed by the reset-vector writes of that family for the same
    address. *)
Theorem pgx_process_delivers d cfg f log :
  pgx_framed d -> bytes d ->
  version_nibble d = 0 ->
  cpu_family (config.CPU cfg) = Some f -> cpu_nibble d = family_id f ->
  loader.PGXLoader.Process (loader.PGXLoader.mkPGXLoader (Some record) (Some d) cfg) log
  = Done (None, log ++ (pgx_address d, drop 8 d) :: family_vectors f (pgx_address d)).
Proof.
  intros [Hlen Hsig] Hb Hv Hf Hid.
  assert (Hc : cpu_id_matches d (config.CPU cfg) = true).
  { unfold cpu_id_matches. rewrite Hf, Hid. apply Z.eqb_refl. }
  unfold loader.PGXLoader.Process.
  cbn [loader.PGXLoader.data loader.PGXLoader.handler loader.PGXLoader.config].
  unfold PGXOffData, PGXOffSigStart, PGXOffSigEnd, PGXOffVersion,
    PGXOffAddrStart, PGXOffAddrEnd.
  replace (len d <? 8) with false by (symmetry; apply Z.ltb_ge; lia).
  rewrite slice_take_drop by lia. cbn [checked exec_bind].
  change (Z.to_nat (3 - 0)) with 3%nat. change (Z.to_nat 0) with 0%nat.
  rewrite drop_0, Hsig.
  change (bool_decide ([80; 71; 88] = loader.bytes_of_string "PGX")) with true.
  cbn [negb].
  rewrite index_nth by lia. cbn [checked exec_bind].
  change (Z.to_nat 3) with 3%nat.
  rewrite nibble_of_byte. fold (version_nibble d). rewrite Hv. cbn [Z.ltb Z.compare].
  fold (cpu_nibble d).
  apply cpu_compatibility in Hc. rewrite Hc.
  rewrite slice_take_drop by lia. cbn [checked exec_bind].
  rewrite slice_from_drop by lia.
  change (Z.to_nat (8 - 4)) with 4%nat. change (Z.to_nat 4) with 4%nat.
  change (Z.to_nat 8) with 8%nat.
  destruct d as [|x0 [|x1 [|x2 [|x3 [|x4 [|x5 [|x6 [|x7 d']]]]]]]];
    try (unfold len in Hlen; simpl in Hlen; lia).
  unfold bytes in Hb.
  repeat match goal with
         | H : Forall _ (_ :: _) |- _ => apply Forall_cons_1 in H; destruct H
         end.
  unfold loader.PGXLoader.LittleEndian_Uint32.
  cbn [take drop]. unfold index. cbn [len length Z.of_nat].
  simpl. rewrite little_endian_32 by assumption.
  unfold pgx_address. cbn [nth].
  unfold record at 1.
  rewrite (SetupResetVectors_record_family _ f) by exact Hf.
  rewrite <- app_assoc. reflexivity.
Qed.

(** The example of the specification: four bytes for the 680x0 family at
    0x00380000. *)
Lemma pgx_process_delivers_witness :
  loader.PGXLoader.Process
    (loader.PGXLoader.mkPGXLoader (Some record) (Some sample.pgx_file) sample.cfg68040) []
  = Done (None, [ (0x380000, [1; 2; 3; 4]); (0x00000004, [0x00; 0x38; 0x00; 0x00]) ]).
Proof.
  exact (pgx_process_delivers sample.pgx_file sample.cfg68040 F680X0 []
           ltac:(split; [vm_compute; discriminate | reflexivity])
           ltac:(repeat constructor; lia)
           eq_refl eq_refl eq_refl).
Defined.

(** X14. [hexStringToBytes] inverts hexadecimal printing: the digits of a
    byte string decode to that byte string. *)
Theorem hexStringToBytes_round_trip data :
  bytes data ->
  loader.hexStringToBytes (String.string_of_list_ascii (hex_bytes data)) = (data, None).
Proof. apply hexStringToBytes_hex_bytes. Qed.

Lemma hexStringToBytes_round_trip_witness :
  loader.hexStringToBytes "DEAD00ff" = ([0xDE; 0xAD; 0x00; 0xFF], None)
  /\ loader.hexStringToBytes (String.string_of_list_ascii (hex_bytes [0xDE; 0xAD]))
     = ([0xDE; 0xAD], None).
Proof.
  split; [reflexivity|].
  exact (hexStringToBytes_round_trip [0xDE; 0xAD] ltac:(repeat constructor; lia)).
Defined.

(** X15. [hexStringToBytes] refuses every string with an odd number of
    characters, whatever the characters are. *)
Theorem hexStringToBytes_odd hexStr :
  Nat.Odd (String.length hexStr) ->
  loader.hexStringToBytes hexStr
  = ([], Some (Errorf "hex string length must be even" [] None)).
Proof.
  intros [k Hk]. unfold loader.hexStringToBytes.
  assert (Hl : len (String.list_ascii_of_string hexStr) = 2 * Z.of_nat k + 1).
  { unfold len.
    assert (H : forall s, length (String.list_ascii_of_string s) = String.length s).
    { induction s as [|c s IH]; [reflexivity|]. simpl. rewrite IH. reflexivity. }
    rewrite H, Hk. lia. }
  rewrite Hl.
  replace ((2 * Z.of_nat k + 1) `rem` 2 =? 0) with false; [reflexivity|].
  symmetry. apply Z.eqb_neq. rewrite Z.rem_mod_nonneg by lia.
  rewrite Z.add_comm, Z.mul_comm, Z.mod_add by lia. discriminate.
Qed.

Lemma hexStringToBytes_odd_witness :
  loader.hexStringToBytes "ABC"
  = ([], Some (Errorf "hex string length must be even" [] None)).
Proof.
  exact (hexStringToBytes_odd "ABC" (ex_intro _ 1%nat eq_refl)).
Defined.

(** X16. A record whose type is none of 0 to 5 stops the processing of an
    Intel HEX file with an error that names the type and the line; nothing
    is delivered for it and the base address stays as it was. *)
Theorem intel_hex_unsupported_type {St} (h : loader.WriteHandler St) scanErr
    address type data checksum rest lineNum base s :
  0 <= address < 65536 -> 5 < type < 256 ->
  bytes data -> len data < 256 -> 0 <= checksum < 256 ->
  loader.IntelHexLoader.scan h scanErr
    (record_line address type data checksum :: rest) lineNum base s
  = (Some (Errorf "unsupported record type 0x%02X at line %d"
             [ArgInt type; ArgInt (int (lineNum + 1))] None), base, s).
Proof.
  intros Ha Ht Hb Hl Hc.
  rewrite scan_record by (assumption || lia).
  replace (type =? 0) with false by (symmetry; apply Z.eqb_neq; lia).
  replace (type =? 1) with false by (symmetry; apply Z.eqb_neq; lia).
  replace (type =? 2) with false by (symmetry; apply Z.eqb_neq; lia).
  replace (type =? 4) with false by (symmetry; apply Z.eqb_neq; lia).
  replace (type =? 3) with false by (symmetry; apply Z.eqb_neq; lia).
  replace (type =? 5) with false by (symmetry; apply Z.eqb_neq; lia).
  reflexivity.
Qed.

Lemma intel_hex_unsupported_type_witness :
  loader.IntelHexLoader.scan record None [":00000006FA"%string] 0 0 []
  = (Some (Errorf "unsupported record type 0x%02X at line %d"
             [ArgInt 6; ArgInt 1] None), 0, []).
Proof.
  exact (intel_hex_unsupported_type record None 0 6 [] 0xFA [] 0 0 []
           ltac:(lia) ltac:(lia) ltac:(constructor) ltac:(vm_compute; reflexivity)
           ltac:(lia)).
Defined.

(** ** Flash commands and targets *)

(** X17. Unless the user answers yes at the prompt, [flashProgramFull]
    and [flashProgramSector] return without touching the hardware: the link
    is as it was and the connection was neither opened nor closed. *)
Theorem flash_needs_confirmation fuel env filename w :
  head (cmd.answers w) <> Some true ->
  forall run, run = cmd.flashProgramFull \/ run = cmd.flashProgramSector ->
  exists err w',
    run fuel env filename w = Done (err, w')
    /\ cmd.link w' = cmd.link w
    /\ filter (fun a => touches_connection a = true) (cmd.log w')
       = filter (fun a => touches_connection a = true) (cmd.log w).
Proof.
  intros Hno run Hrun.
  assert (HP : forall format args w0,
            cmd.link (cmd.printInfo env format args w0) = cmd.link w0
            /\ filter (fun a => touches_connection a = true)
                      (cmd.log (cmd.printInfo env format args w0))
               = filter (fun a => touches_connection a = true) (cmd.log w0)
            /\ cmd.answers (cmd.printInfo env format args w0) = cmd.answers w0).
  { intros format args w0. unfold cmd.printInfo, cmd.act.
    destruct (negb _); cbn; [|auto].
    rewrite filter_app, filter_cons_False by (cbn; discriminate).
    rewrite filter_nil, app_nil_r. auto. }
  assert (HC : forall prompt w0,
            head (cmd.answers w0) <> Some true ->
            fst (cmd.Confirm prompt w0) = false
            /\ cmd.link (snd (cmd.Confirm prompt w0)) = cmd.link w0
            /\ filter (fun a => touches_connection a = true)
                      (cmd.log (snd (cmd.Confirm prompt w0)))
               = filter (fun a => touches_connection a = true) (cmd.log w0)).
  { intros prompt w0 Hh. unfold cmd.Confirm, cmd.act. cbn [cmd.answers].
    destruct (cmd.answers w0) as [|[|] rest]; cbn in *; try congruence;
      rewrite filter_app, filter_cons_False by (cbn; discriminate);
      rewrite filter_nil, app_nil_r; auto. }
  destruct Hrun as [-> | ->].
  - unfold cmd.flashProgramFull.
    destruct (cmd.validateConnectionFlags env); [eauto 6|].
    destruct (cmd.ParseHexAddress env _) as [addr [e|]]; [eauto 6|].
    destruct (cmd.ReadFile env filename) as [data [e|]]; [eauto 6|].
    match goal with
    | |- context [cmd.Confirm ?p ?w1] =>
      assert (Hw1 : cmd.link w1 = cmd.link w
                    /\ filter (fun a => touches_connection a = true) (cmd.log w1)
                       = filter (fun a => touches_connection a = true) (cmd.log w)
                    /\ cmd.answers w1 = cmd.answers w);
      [| destruct (HC p w1) as (H1 & H2 & H3);
         [destruct Hw1 as (_ & _ & ->); exact Hno|];
         destruct (cmd.Confirm p w1) as [yes w2] ]
    end.
    { destruct (negb (len data =? _)).
      - destruct (HP "About to upload %d bytes to address 0x%X and program flash\n"%string
                     [ArgInt (len data); ArgInt addr]
                     (cmd.printInfo env
                        "Warning: File size (%d bytes) does not match configured flash size (%d bytes)\n"
                        [ArgInt (len data); ArgInt (config.FlashSize (cmd.cfg env))] w))
          as (A1 & A2 & A3).
        destruct (HP "Warning: File size (%d bytes) does not match configured flash size (%d bytes)\n"%string
                     [ArgInt (len data); ArgInt (config.FlashSize (cmd.cfg env))] w)
          as (B1 & B2 & B3).
        rewrite A1, A2, A3, B1, B2, B3. auto.
      - apply HP. }
    cbn [fst snd] in *. subst yes. cbn [negb].
    destruct (HP "Operation cancelled.\n"%string [] w2) as (A1 & A2 & _).
    destruct Hw1 as (L1 & L2 & _).
    eexists. eexists. split; [reflexivity|]. split; congruence.
  - unfold cmd.flashProgramSector.
    destruct (cmd.validateConnectionFlags env); [eauto 6|].
    destruct (_ || _); [eauto 6|].
    destruct (strconv.ParseUint _ _ _) as [sectorNum [e|]]; [eauto 6|].
    destruct (cmd.ReadFile env filename) as [data [e|]]; [eauto 6|].
    destruct (negb _); [eauto 6|].
    destruct (HP "About to upload image to sector 0x%02X\n"%string [ArgInt sectorNum] w)
      as (L1 & L2 & L3).
    destruct (HC "Are you sure you want to reprogram the flash sector? (y/n): "%string
                 (cmd.printInfo env "About to upload image to sector 0x%02X\n"
                                [ArgInt sectorNum] w))
      as (H1 & H2 & H3); [rewrite L3; exact Hno|].
    destruct (cmd.Confirm _ _) as [yes w2].
    cbn [fst snd] in *. subst yes. cbn [negb].
    destruct (HP "Operation cancelled.\n"%string [] w2) as (A1 & A2 & _).
    eexists. eexists. split; [reflexivity|]. split; congruence.
Qed.

Lemma flash_needs_confirmation_witness :
  exists err w',
    cmd.flashProgramFull 100 sample.env "image.bin"
      (cmd.mkWorld [false] (cmd.link sample.world) []) = Done (err, w')
    /\ cmd.link w' = cmd.link sample.world
    /\ filter (fun a => touches_connection a = true) (cmd.log w') = [].
Proof.
  exact (flash_needs_confirmation 100 sample.env "image.bin"
           (cmd.mkWorld [false] (cmd.link sample.world) [])
           ltac:(discriminate) cmd.flashProgramFull (or_introl eq_refl)).
Defined.

(** X18. Whatever machine is named, [SetTarget] leaves a configuration whose
    RAM buffer is 8 KB and whose flash geometry is either absent (page and
    sector size 0) or has 8 KB pages and a sector size of 8 or 32 KB, a
    multiple of the page size; the settings read from the ini file are not
    touched. *)
Theorem SetTarget_geometry ToLower machineName c :
  let c' := target.SetTarget ToLower machineName c in
  config.RAMSize c' = 8
  /\ ((config.FlashPageSize c' = 0 /\ config.FlashSectorSize c' = 0)
      \/ (config.FlashPageSize c' = 8
          /\ (config.FlashSectorSize c' = 8 \/ config.FlashSectorSize c' = 32)
          /\ config.FlashSectorSize c' mod config.FlashPageSize c' = 0))
  /\ config.Port c' = config.Port c /\ config.CPU c' = config.CPU c
  /\ config.ChunkSize c' = config.ChunkSize c /\ config.FlashSize c' = config.FlashSize c.
Proof.
  cbv zeta. unfold target.SetTarget.
  destruct (String.eqb (ToLower machineName) "fnx1591").
  { cbn. repeat split; auto. }
  destruct (String.eqb (ToLower machineName) "f256k"
            || String.eqb (ToLower machineName) "f256jr").
  { cbn. repeat split; auto. }
  cbn. repeat split; auto.
Qed.

(** ** WDC images *)

Lemma index_header (pre : list Z) x0 x1 x2 x3 x4 x5 rest :
  let data := pre ++ x0 :: x1 :: x2 :: x3 :: x4 :: x5 :: rest in
  len data < 2 ^ 62 ->
  index data (len pre) = Some x0
  /\ index data (int (len pre + 1)) = Some x1
  /\ index data (int (len pre + 2)) = Some x2
  /\ index data (int (len pre + 3)) = Some x3
  /\ index data (int (len pre + 4)) = Some x4
  /\ index data (int (len pre + 5)) = Some x5.
Proof.
  intros data Hlen.
  assert (Hd : len data = len pre + 6 + len rest).
  { unfold data. rewrite len_app. unfold len. cbn [length]. lia. }
  pose proof (len_nonneg pre) as Hp. pose proof (len_nonneg rest) as Hr.
  assert (H : forall k x, (x0 :: x1 :: x2 :: x3 :: x4 :: x5 :: rest) !! k = Some x ->
                          (k < 6)%nat -> index data (len pre + Z.of_nat k) = Some x).
  { intros k x Hk Hk6. unfold index.
    replace ((0 <=? len pre + Z.of_nat k) && (len pre + Z.of_nat k <? len data)) with true
      by (symmetry; rewrite andb_true_iff, Z.leb_le, Z.ltb_lt; lia).
    unfold data. rewrite lookup_app_r by (unfold len; lia).
    replace (Z.to_nat (len pre + Z.of_nat k) - length pre)%nat with k
      by (unfold len; lia).
    exact Hk. }
  rewrite !int_small by lia.
  repeat split.
  - rewrite <- (Z.add_0_r (len pre)). exact (H 0%nat x0 eq_refl ltac:(lia)).
  - exact (H 1%nat x1 eq_refl ltac:(lia)).
  - exact (H 2%nat x2 eq_refl ltac:(lia)).
  - exact (H 3%nat x3 eq_refl ltac:(lia)).
  - exact (H 4%nat x4 eq_refl ltac:(lia)).
  - exact (H 5%nat x5 eq_refl ltac:(lia)).
Qed.

Lemma le24_decode v :
  0 <= v < 2 ^ 24 ->
  Z.lor (Z.lor (uint32 (v mod 256)) (uint32 (uint32 ((v / 256) mod 256) ≪ 8)))
        (uint32 (uint32 ((v / 65536) mod 256) ≪ 16))
  = v.
Proof.
  intros Hv.
  pose proof (little_endian_32 (v mod 256) ((v / 256) mod 256) ((v / 65536) mod 256) 0
                ltac:(mlia) ltac:(mlia) ltac:(mlia) ltac:(lia)) as H.
  change (uint32 (uint32 0 ≪ 24)) with 0 in H. rewrite Z.lor_0_r in H.
  rewrite H. change (2 ^ 8) with 256. change (2 ^ 16) with 65536.
  change (2 ^ 24) with 16777216 in Hv. mlia.
Qed.

Lemma wdc_readBlock_terminator (pre : list Z) l0 l1 l2 rest :
  len (pre ++ 0 :: 0 :: 0 :: l0 :: l1 :: l2 :: rest) < 2 ^ 62 ->
  loader.WDCLoader.readBlock (pre ++ 0 :: 0 :: 0 :: l0 :: l1 :: l2 :: rest) (len pre)
  = Done (0, [], len pre + 6, None).
Proof.
  intros Hlen.
  destruct (index_header pre 0 0 0 l0 l1 l2 rest Hlen) as (I0 & I1 & I2 & I3 & I4 & I5).
  assert (Hd : len (pre ++ 0 :: 0 :: 0 :: l0 :: l1 :: l2 :: rest) = len pre + 6 + len rest).
  { rewrite len_app. unfold len. cbn [length]. lia. }
  pose proof (len_nonneg pre) as Hp. pose proof (len_nonneg rest) as Hr.
  unfold loader.WDCLoader.readBlock.
  rewrite I0, I1, I2, I3, I4, I5. cbn [checked exec_bind].
  rewrite !int_small by lia.
  replace (len (pre ++ 0 :: 0 :: 0 :: l0 :: l1 :: l2 :: rest) <? len pre + 6) with false
    by (symmetry; apply Z.ltb_ge; lia).
  reflexivity.
Qed.

Lemma wdc_readBlock_block (pre : list Z) a bs rest :
  wdc_op_ok (a, bs) ->
  len (pre ++ wdc_block (a, bs) ++ rest) < 2 ^ 62 ->
  loader.WDCLoader.readBlock (pre ++ wdc_block (a, bs) ++ rest) (len pre)
  = Done (a, bs, len (pre ++ wdc_block (a, bs)), None).
Proof.
  intros [Ha Hb] Hlen. cbn [fst snd] in Ha, Hb.
  unfold wdc_block, le24 in *. cbn [fst snd] in *.
  rewrite <- !app_assoc in *. cbn [app] in *.
  destruct (index_header pre _ _ _ _ _ _ (bs ++ rest) Hlen) as (I0 & I1 & I2 & I3 & I4 & I5).
  set (data := pre ++ _) in *.
  assert (Hd : len data = len pre + 6 + len bs + len rest).
  { unfold data. rewrite len_app. unfold len. cbn [length]. rewrite length_app. lia. }
  pose proof (len_nonneg pre) as Hp. pose proof (len_nonneg rest) as Hr.
  pose proof (len_nonneg bs) as Hbs.
  unfold loader.WDCLoader.readBlock.
  rewrite I0, I1, I2, I3, I4, I5. cbn [checked exec_bind].
  rewrite (le24_decode a) by lia.
  rewrite (le24_decode (len bs)) by lia.
  change (2 ^ 24) with 16777216 in *.
  rewrite !int_small by lia.
  replace (len data <? len pre + 6) with false by (symmetry; apply Z.ltb_ge; lia).
  replace (a =? 0) with false by (symmetry; apply Z.eqb_neq; lia).
  rewrite (int_small (len bs)) by lia.
  rewrite !int_small by lia.
  replace (len data <? len pre + 6 + len bs) with false by (symmetry; apply Z.ltb_ge; lia).
  rewrite slice_take_drop by lia. cbn [checked exec_bind].
  assert (Hsrc : take (Z.to_nat (len pre + 6 + len bs - (len pre + 6)))
                      (drop (Z.to_nat (len pre + 6)) data) = bs).
  { replace (Z.to_nat (len pre + 6 + len bs - (len pre + 6))) with (length bs)
      by (unfold len; lia).
    replace (Z.to_nat (len pre + 6)) with (length pre + 6)%nat by (unfold len; lia).
    unfold data. rewrite drop_app_add'  by reflexivity. cbn [drop].
    rewrite drop_0. apply take_app_length. }
  rewrite Hsrc.
  rewrite copy_full by (rewrite length_make; unfold len; lia).
  repeat f_equal. rewrite len_app. unfold len. cbn [length]. lia.
Qed.

Lemma length_wdc_blocks ops : (length ops <= length (wdc_blocks ops))%nat.
Proof.
  induction ops as [|[a bs] ops IH]; [reflexivity|].
  cbn [wdc_blocks length]. unfold wdc_block, le24. cbn [fst snd app length].
  rewrite length_app. lia.
Qed.

Lemma wdc_loop_round_trip {St} (h : loader.WriteHandler St) ops :
  forall fuel pre s tail,
    Forall wdc_op_ok ops -> wdc_end tail ->
    len (pre ++ wdc_blocks ops ++ tail) < 2 ^ 62 ->
    (length ops < fuel)%nat ->
    exists err,
      loader.WDCLoader.process_loop fuel (pre ++ wdc_blocks ops ++ tail) h (len pre) s
      = Done (err, snd (deliver h ops s))
      /\ (err = None <-> fst (deliver h ops s) = None).
Proof.
  induction ops as [|[a bs] ops IH]; intros fuel pre s tail Hok Hend Hlen Hfuel;
    (destruct fuel as [|fuel]; [cbn [length] in Hfuel; lia|]).
  - cbn [wdc_blocks app deliver fst snd] in *.
    destruct Hend as [-> | (l0 & l1 & l2 & rest & ->)].
    + rewrite app_nil_r. cbn [loader.WDCLoader.process_loop].
      rewrite Z.ltb_irrefl. cbn [negb]. eauto.
    + cbn [loader.WDCLoader.process_loop].
      rewrite wdc_readBlock_terminator by exact Hlen.
      assert (Hd : len pre < len (pre ++ 0 :: 0 :: 0 :: l0 :: l1 :: l2 :: rest)).
      { rewrite len_app. unfold len. cbn [length]. lia. }
      apply Z.ltb_lt in Hd. rewrite Hd. cbn [negb exec_bind].
      rewrite Z.eqb_refl. eauto.
  - apply Forall_cons_1 in Hok. destruct Hok as [Hop Hok].
    cbn [wdc_blocks] in *. rewrite <- app_assoc in *.
    cbn [loader.WDCLoader.process_loop].
    rewrite wdc_readBlock_block by assumption.
    assert (Hd : len pre < len (pre ++ wdc_block (a, bs) ++ wdc_blocks ops ++ tail)).
    { rewrite len_app. unfold wdc_block, le24. cbn [fst snd app].
      unfold len. cbn [length]. lia. }
    apply Z.ltb_lt in Hd. rewrite Hd. cbn [negb exec_bind].
    replace (a =? 0) with false
      by (symmetry; apply Z.eqb_neq; destruct Hop as [Ha _]; cbn [fst] in Ha; lia).
    cbn [deliver].
    destruct (h a bs s) as [[e|] s1].
    + cbn [fst snd]. eexists. split; [reflexivity|]. split; discriminate.
    + rewrite (app_assoc pre (wdc_block (a, bs))) in *.
      apply IH; try assumption. cbn [length] in Hfuel. lia.
Qed.

(** X19. A WDC image is read back as the writes it was built from: for a
    signature byte followed by the blocks of a list of writes (each with a
    non-zero 24-bit address and fewer than 2^24 bytes) and then either the
    end of the file or a zero-address header with anything after it,
    [Process] offers the sink exactly these writes, in order and up to the
    first refusal, and fails only if the sink refuses. *)
Theorem wdc_round_trip {St} (h : loader.WriteHandler St) sig ops tail s :
  Forall wdc_op_ok ops -> wdc_end tail ->
  len (sig :: wdc_blocks ops ++ tail) < 2 ^ 62 ->
  exists err,
    loader.WDCLoader.Process
      (loader.WDCLoader.mkWDCLoader (Some h) (Some (sig :: wdc_blocks ops ++ tail))) s
    = Done (err, snd (deliver h ops s))
    /\ (err = None <-> fst (deliver h ops s) = None).
Proof.
  intros Hok Hend Hlen. unfold loader.WDCLoader.Process.
  cbn [loader.WDCLoader.data loader.WDCLoader.handler].
  change 1 with (len [sig]).
  change (sig :: wdc_blocks ops ++ tail) with ([sig] ++ wdc_blocks ops ++ tail) in *.
  apply wdc_loop_round_trip; try assumption.
  pose proof (length_wdc_blocks ops). cbn [app length]. rewrite length_app. lia.
Qed.

Lemma wdc_round_trip_witness :
  exists err,
    loader.WDCLoader.Process
      (loader.WDCLoader.mkWDCLoader (Some record) (Some sample.wdc_file)) []
    = Done (err, [(0x1000, [0xAA; 0xBB])])
    /\ (err = None <-> None = @None error).
Proof.
  exact (wdc_round_trip record 0x5A [(0x1000, [0xAA; 0xBB])] [0; 0; 0; 0; 0; 0] []
           ltac:(repeat constructor)
           ltac:(right; repeat eexists)
           ltac:(vm_compute; reflexivity)).
Defined.
